(** * wallerstedtlive: the live-event bridge and the donation-goal display

    A shallow embedding of [scripts/tiktoklive_bridge.py] and [Pianothon.py].

    Conventions of the embedding.
    - A Python [str] is the list of its Unicode code points ([list N]).
    - A Python [int] is a [Z] (unbounded, no wrap-around).
    - A Python [float] is a binary64 value, kept as a [spec_float].
    - An untyped Python value ([Any]) is a [value]; dictionaries keep their
      insertion order, objects are attribute tables read with [getattr].
    - A call that may raise returns a [result]; handlers that also mutate the
      capture state and print run in the state-and-exception monad [SE].
    - The clock ([now_iso], [pygame.time.get_ticks]) and the process
      environment are inputs of the operations that read them. *)

From Stdlib Require Import ZArith NArith List String Ascii Lia Bool.
From Stdlib Require Import Floats.SpecFloat.
From stdpp Require Import base gmap sets list.
Import ListNotations.
Local Open Scope Z_scope.

(** ** Python strings *)

Abbreviation pystr := (list N).

(** A string literal of the source, as code points. *)
Definition lit (s : string) : pystr :=
  map N_of_ascii (list_ascii_of_string s).

(** [str.isspace] on one code point: the white-space table of CPython. *)
Definition py_isspace (c : N) : bool :=
  ((9 <=? c) && (c <=? 13) || (28 <=? c) && (c <=? 32) ||
   (c =? 133) || (c =? 160) || (c =? 5760) ||
   (8192 <=? c) && (c <=? 8202) || (c =? 8232) || (c =? 8233) ||
   (c =? 8239) || (c =? 8287) || (c =? 12288))%N.

Fixpoint lstrip (s : pystr) : pystr :=
  match s with
  | c :: s' => if py_isspace c then lstrip s' else s
  | [] => []
  end.

(** [s.strip()] *)
Definition strip (s : pystr) : pystr := rev (lstrip (rev (lstrip s))).

(** Truth value of a string: non-empty. *)
Definition str_truthy (s : pystr) : bool :=
  match s with [] => false | _ :: _ => true end.

(** [str(n)] for an int: decimal digits, a leading minus sign when negative. *)
Fixpoint digits_fuel (fuel : nat) (n : N) (acc : pystr) : pystr :=
  match fuel with
  | O => acc
  | S fuel' =>
      let acc' := (48 + n mod 10)%N :: acc in
      if (n <? 10)%N then acc' else digits_fuel fuel' (n / 10)%N acc'
  end.

Definition str_of_N (n : N) : pystr := digits_fuel (S (N.to_nat (N.log2 n))) n [].

Definition str_of_int (z : Z) : pystr :=
  if z <? 0 then 45%N :: str_of_N (Z.abs_N z) else str_of_N (Z.abs_N z).

(** [needle in hay] for strings. *)
Fixpoint is_prefix (p s : pystr) : bool :=
  match p, s with
  | [], _ => true
  | a :: p', b :: s' => (a =? b)%N && is_prefix p' s'
  | _ :: _, [] => false
  end.

Fixpoint str_contains (needle hay : pystr) : bool :=
  is_prefix needle hay ||
  match hay with
  | [] => false
  | _ :: hay' => str_contains needle hay'
  end.

(** ** Exceptions and results *)

Inductive exn : Type :=
| OverflowError   (* int(inf) *)
| ValueError      (* int(nan), float of a malformed string *)
| RecursionError (msg : pystr)  (* a call beyond the recursion limit *)
| ClientError (msg : pystr)     (* raised by the live-client library *)
| Interrupted.    (* the process is stopped from outside (KeyboardInterrupt,
                     CancelledError): a BaseException that is not an Exception *)

(** [except Exception] catches every exception but the interruption. *)
Definition is_exception (e : exn) : bool :=
  match e with
  | Interrupted => false
  | _ => true
  end.

Inductive result (A : Type) : Type :=
| Ok (a : A)
| Raise (e : exn).
Arguments Ok {A} a.
Arguments Raise {A} e.

Definition rbind {A B} (r : result A) (k : A -> result B) : result B :=
  match r with
  | Ok a => k a
  | Raise e => Raise e
  end.

Declare Scope result_scope.
Delimit Scope result_scope with result.
Notation "'let*' x ':=' r 'in' k" := (rbind r (fun x => k))
  (at level 10, x name, r at level 100, k at level 200) : result_scope.

(** Run the calls of a list left to right; the first exception wins. *)
Fixpoint rmapM {A B} (f : A -> result B) (l : list A) : result (list B) :=
  match l with
  | [] => Ok []
  | a :: l' => (let* b := f a in let* bs := rmapM f l' in Ok (b :: bs))%result
  end.

(** ** Untyped values *)

(** Keys of a dictionary: strings, or some other hashable value. *)
Inductive dkey : Type :=
| KStr (s : pystr)
| KInt (z : Z).

#[warnings="-register-all"]
Inductive value : Type :=
| VNone
| VBool (b : bool)
| VInt (z : Z)
| VFloat (f : spec_float)
| VStr (s : pystr)
| VList (items : list value)
| VDict (items : list (dkey * value))
| VObj (attrs : list (pystr * value)).   (* any other object, with its attributes *)

(** Induction over values that reaches inside lists, dictionaries and
    attribute tables. *)
Section value_induction.
Variable P : value -> Prop.
Hypothesis HNone : P VNone.
Hypothesis HBool : forall b, P (VBool b).
Hypothesis HInt : forall z, P (VInt z).
Hypothesis HFloat : forall f, P (VFloat f).
Hypothesis HStr : forall s, P (VStr s).
Hypothesis HList : forall items, Forall P items -> P (VList items).
Hypothesis HDict : forall items, Forall (fun kv => P (snd kv)) items -> P (VDict items).
Hypothesis HObj : forall attrs, Forall (fun kv => P (snd kv)) attrs -> P (VObj attrs).

Fixpoint value_ind' (v : value) : P v :=
  match v with
  | VNone => HNone
  | VBool b => HBool b
  | VInt z => HInt z
  | VFloat f => HFloat f
  | VStr s => HStr s
  | VList items =>
      HList items
        ((fix go (l : list value) : Forall P l :=
            match l with
            | [] => List.Forall_nil P
            | x :: l' => List.Forall_cons P x l' (value_ind' x) (go l')
            end) items)
  | VDict items =>
      HDict items
        ((fix go (l : list (dkey * value)) : Forall (fun kv => P (snd kv)) l :=
            match l with
            | [] => List.Forall_nil _
            | kv :: l' => List.Forall_cons _ kv l' (value_ind' (snd kv)) (go l')
            end) items)
  | VObj attrs =>
      HObj attrs
        ((fix go (l : list (pystr * value)) : Forall (fun kv => P (snd kv)) l :=
            match l with
            | [] => List.Forall_nil _
            | kv :: l' => List.Forall_cons _ kv l' (value_ind' (snd kv)) (go l')
            end) attrs)
  end.
End value_induction.

(** [getattr(obj, name, default)] *)
Fixpoint assoc {A} (name : pystr) (l : list (pystr * A)) : option A :=
  match l with
  | [] => None
  | (k, a) :: l' => if decide (k = name) then Some a else assoc name l'
  end.

Definition getattr (obj : value) (name : string) (default : value) : value :=
  match obj with
  | VObj attrs =>
      match assoc (lit name) attrs with
      | Some v => v
      | None => default
      end
  | _ => default
  end.

(** [bool(v)] *)
Definition truthy (v : value) : bool :=
  match v with
  | VNone => false
  | VBool b => b
  | VInt z => negb (z =? 0)
  | VFloat (S754_zero _) => false
  | VFloat _ => true
  | VStr s => str_truthy s
  | VList items => match items with [] => false | _ => true end
  | VDict items => match items with [] => false | _ => true end
  | VObj _ => true
  end.

(** [a or b] *)
Definition py_or (a b : value) : value := if truthy a then a else b.

(** ** Floats to ints *)

(** [int(f)] for a float: truncation toward zero; infinities and NaN raise. *)
Definition int_of_float (f : spec_float) : result Z :=
  match f with
  | S754_zero _ => Ok 0
  | S754_infinity _ => Raise OverflowError
  | S754_nan => Raise ValueError
  | S754_finite s m e =>
      let mag := if 0 <=? e then Z.shiftl (Z.pos m) e else Z.shiftr (Z.pos m) (- e) in
      Ok (if (s : bool) then - mag else mag)
  end.

(** ** JSON payloads and their serialization *)

(** The values the bridge puts in the records it prints. *)
#[warnings="-register-all"]
Inductive json : Type :=
| JNull
| JBool (b : bool)
| JInt (z : Z)
| JStr (s : pystr)
| JList (items : list json)
| JDict (items : list (pystr * json)).

Abbreviation jdict := (list (pystr * json)).

(** [d[k] = v]: an existing key keeps its place, a new key goes last. *)
Fixpoint dict_set (d : jdict) (k : pystr) (v : json) : jdict :=
  match d with
  | [] => [(k, v)]
  | (k', v') :: d' =>
      if decide (k' = k) then (k', v) :: d' else (k', v') :: dict_set d' k v
  end.

(** A dictionary display [{k1: v1, ..., **d, ...}], entries left to right. *)
Definition dict_literal (items : list (pystr * json)) : jdict :=
  fold_left (fun d kv => dict_set d (fst kv) (snd kv)) items [].

Definition json_of_opt_str (o : option pystr) : json :=
  match o with
  | Some s => JStr s
  | None => JNull
  end.

Definition hex_digit (n : N) : N :=
  (if n <? 10 then 48 + n else 87 + n)%N.

(** ['{0:04x}'.format(n)] for [n < 0x10000]. *)
Definition hex4 (n : N) : pystr :=
  [hex_digit ((n / 4096) mod 16); hex_digit ((n / 256) mod 16);
   hex_digit ((n / 16) mod 16); hex_digit (n mod 16)]%N.

(** The replacement of one code point by [encode_basestring_ascii]:
    printable ASCII other than the quote and the backslash stays, the rest is
    escaped, code points above the BMP as a surrogate pair. *)
Definition escape_char (c : N) : pystr :=
  (if c =? 92 then [92; 92]
   else if c =? 34 then [92; 34]
   else if c =? 8 then [92; 98]
   else if c =? 12 then [92; 102]
   else if c =? 10 then [92; 110]
   else if c =? 13 then [92; 114]
   else if c =? 9 then [92; 116]
   else if (32 <=? c) && (c <=? 126) then [c]
   else if c <? 65536 then [92; 117] ++ hex4 c
   else
     let n := c - 65536 in
     let s1 := N.lor 55296 (N.land (N.shiftr n 10) 1023) in
     let s2 := N.lor 56320 (N.land n 1023) in
     [92; 117] ++ hex4 s1 ++ [92; 117] ++ hex4 s2)%N.

Definition encode_basestring_ascii (s : pystr) : pystr :=
  34%N :: flat_map escape_char s ++ [34%N].

(** [sep.join(parts)] *)
Fixpoint join (sep : pystr) (parts : list pystr) : pystr :=
  match parts with
  | [] => []
  | [p] => p
  | p :: rest => p ++ sep ++ join sep rest
  end.

(** [json.dumps(j, ensure_ascii=True)] with the default separators. *)
Fixpoint json_dumps (j : json) : pystr :=
  match j with
  | JNull => lit "null"
  | JBool true => lit "true"
  | JBool false => lit "false"
  | JInt z => str_of_int z
  | JStr s => encode_basestring_ascii s
  | JList items =>
      lit "[" ++ join (lit ", ") (map json_dumps items) ++ lit "]"
  | JDict items =>
      lit "{" ++
      join (lit ", ")
        (map (fun kv => encode_basestring_ascii (fst kv) ++ lit ": " ++ json_dumps (snd kv))
           items) ++
      lit "}"
  end.

(** Induction over payloads that reaches inside lists and objects. *)
Section json_induction.
Variable P : json -> Prop.
Hypothesis HNull : P JNull.
Hypothesis HBool : forall b, P (JBool b).
Hypothesis HInt : forall z, P (JInt z).
Hypothesis HStr : forall s, P (JStr s).
Hypothesis HList : forall items, Forall P items -> P (JList items).
Hypothesis HDict : forall items, Forall (fun kv => P (snd kv)) items -> P (JDict items).

Fixpoint json_ind' (j : json) : P j :=
  match j with
  | JNull => HNull
  | JBool b => HBool b
  | JInt z => HInt z
  | JStr s => HStr s
  | JList items =>
      HList items
        ((fix go (l : list json) : Forall P l :=
            match l with
            | [] => List.Forall_nil P
            | x :: l' => List.Forall_cons P x l' (json_ind' x) (go l')
            end) items)
  | JDict items =>
      HDict items
        ((fix go (l : list (pystr * json)) : Forall (fun kv => P (snd kv)) l :=
            match l with
            | [] => List.Forall_nil _
            | kv :: l' => List.Forall_cons _ kv l' (json_ind' (snd kv)) (go l')
            end) items)
  end.
End json_induction.

(** ** Standard output *)

(** What reached the consumer ([written]) and what still sits in the
    buffer ([pending]). *)
Record Stdout : Type := {
  written : pystr;
  pending : pystr
}.

Definition stdout_empty : Stdout := {| written := []; pending := [] |}.

(** [print(s, flush=True)] *)
Definition print_flush (o : Stdout) (s : pystr) : Stdout :=
  {| written := written o ++ pending o ++ s ++ [10%N]; pending := [] |}.

(** [emit_line(payload)] *)
Definition emit_line (payload : jdict) (o : Stdout) : Stdout :=
  print_flush o (json_dumps (JDict payload)).

(** ** [LiveCaptureState] *)

Record LiveCaptureState : Type := {
  username : pystr;
  warnings : list pystr;
  room_id : option pystr;
  title : option pystr;
  status_code : Z;
  is_live : bool;
  current_viewers : Z;
  current_likes : Z;
  current_enters : Z;
  samples : list jdict;
  comments : list jdict;
  gifts : list jdict
}.

(** [LiveCaptureState(username)] *)
Definition new_state (name : pystr) : LiveCaptureState :=
  {| username := name; warnings := []; room_id := None; title := None;
     status_code := 0; is_live := false;
     current_viewers := 0; current_likes := 0; current_enters := 0;
     samples := []; comments := []; gifts := [] |}.

Definition set_warnings (x : list pystr) (s : LiveCaptureState) :=
  {| username := username s; warnings := x; room_id := room_id s; title := title s;
     status_code := status_code s; is_live := is_live s;
     current_viewers := current_viewers s; current_likes := current_likes s;
     current_enters := current_enters s;
     samples := samples s; comments := comments s; gifts := gifts s |}.

Definition set_room_id (x : option pystr) (s : LiveCaptureState) :=
  {| username := username s; warnings := warnings s; room_id := x; title := title s;
     status_code := status_code s; is_live := is_live s;
     current_viewers := current_viewers s; current_likes := current_likes s;
     current_enters := current_enters s;
     samples := samples s; comments := comments s; gifts := gifts s |}.

Definition set_title (x : option pystr) (s : LiveCaptureState) :=
  {| username := username s; warnings := warnings s; room_id := room_id s; title := x;
     status_code := status_code s; is_live := is_live s;
     current_viewers := current_viewers s; current_likes := current_likes s;
     current_enters := current_enters s;
     samples := samples s; comments := comments s; gifts := gifts s |}.

Definition set_status_code (x : Z) (s : LiveCaptureState) :=
  {| username := username s; warnings := warnings s; room_id := room_id s; title := title s;
     status_code := x; is_live := is_live s;
     current_viewers := current_viewers s; current_likes := current_likes s;
     current_enters := current_enters s;
     samples := samples s; comments := comments s; gifts := gifts s |}.

Definition set_is_live (x : bool) (s : LiveCaptureState) :=
  {| username := username s; warnings := warnings s; room_id := room_id s; title := title s;
     status_code := status_code s; is_live := x;
     current_viewers := current_viewers s; current_likes := current_likes s;
     current_enters := current_enters s;
     samples := samples s; comments := comments s; gifts := gifts s |}.

Definition set_current_viewers (x : Z) (s : LiveCaptureState) :=
  {| username := username s; warnings := warnings s; room_id := room_id s; title := title s;
     status_code := status_code s; is_live := is_live s;
     current_viewers := x; current_likes := current_likes s;
     current_enters := current_enters s;
     samples := samples s; comments := comments s; gifts := gifts s |}.

Definition set_current_likes (x : Z) (s : LiveCaptureState) :=
  {| username := username s; warnings := warnings s; room_id := room_id s; title := title s;
     status_code := status_code s; is_live := is_live s;
     current_viewers := current_viewers s; current_likes := x;
     current_enters := current_enters s;
     samples := samples s; comments := comments s; gifts := gifts s |}.

Definition set_current_enters (x : Z) (s : LiveCaptureState) :=
  {| username := username s; warnings := warnings s; room_id := room_id s; title := title s;
     status_code := status_code s; is_live := is_live s;
     current_viewers := current_viewers s; current_likes := current_likes s;
     current_enters := x;
     samples := samples s; comments := comments s; gifts := gifts s |}.

Definition set_samples (x : list jdict) (s : LiveCaptureState) :=
  {| username := username s; warnings := warnings s; room_id := room_id s; title := title s;
     status_code := status_code s; is_live := is_live s;
     current_viewers := current_viewers s; current_likes := current_likes s;
     current_enters := current_enters s;
     samples := x; comments := comments s; gifts := gifts s |}.

Definition set_comments (x : list jdict) (s : LiveCaptureState) :=
  {| username := username s; warnings := warnings s; room_id := room_id s; title := title s;
     status_code := status_code s; is_live := is_live s;
     current_viewers := current_viewers s; current_likes := current_likes s;
     current_enters := current_enters s;
     samples := samples s; comments := x; gifts := gifts s |}.

Definition set_gifts (x : list jdict) (s : LiveCaptureState) :=
  {| username := username s; warnings := warnings s; room_id := room_id s; title := title s;
     status_code := status_code s; is_live := is_live s;
     current_viewers := current_viewers s; current_likes := current_likes s;
     current_enters := current_enters s;
     samples := samples s; comments := comments s; gifts := x |}.

(** [self.snapshot()], the clock reading [now] being [now_iso()]. *)
Definition snapshot (s : LiveCaptureState) (now : pystr) : jdict :=
  dict_literal
    [ (lit "username", JStr (username s));
      (lit "isLive", JBool (is_live s));
      (lit "statusCode", JInt (status_code s));
      (lit "viewerCount", JInt (Z.max 0 (current_viewers s)));
      (lit "likeCount", JInt (Z.max 0 (current_likes s)));
      (lit "enterCount", JInt (Z.max 0 (current_enters s)));
      (lit "roomId", json_of_opt_str (room_id s));
      (lit "title", json_of_opt_str (title s));
      (lit "fetchedAt", JStr now) ].

(** [self.add_sample()]: the new state and the sample returned. *)
Definition add_sample (s : LiveCaptureState) (now : pystr) : LiveCaptureState * jdict :=
  let sample :=
    dict_literal
      [ (lit "capturedAt", JStr now);
        (lit "viewerCount", JInt (Z.max 0 (current_viewers s)));
        (lit "likeCount", JInt (Z.max 0 (current_likes s)));
        (lit "enterCount", JInt (Z.max 0 (current_enters s))) ] in
  (set_samples (samples s ++ [sample]) s, sample).

(** ** The monad of the handlers *)

(** The capture state and standard output, both mutated in place. The
    field [emitted] is ghost state: the payloads [emit_line] was called
    with, oldest first; no operation reads it. *)
Record World : Type := {
  state : LiveCaptureState;
  stdout : Stdout;
  emitted : list jdict
}.

Definition SE (A : Type) : Type := World -> World * result A.

Definition se_ret {A} (a : A) : SE A := fun w => (w, Ok a).

Definition se_bind {A B} (m : SE A) (k : A -> SE B) : SE B :=
  fun w =>
    match m w with
    | (w', Ok a) => k a w'
    | (w', Raise e) => (w', Raise e)
    end.

Definition se_lift {A} (r : result A) : SE A := fun w => (w, r).

Definition se_get : SE LiveCaptureState := fun w => (w, Ok (state w)).

Definition se_modify (f : LiveCaptureState -> LiveCaptureState) : SE unit :=
  fun w => ({| state := f (state w); stdout := stdout w; emitted := emitted w |}, Ok tt).

Definition se_emit (payload : jdict) : SE unit :=
  fun w =>
    ({| state := state w;
        stdout := emit_line payload (stdout w);
        emitted := emitted w ++ [payload] |}, Ok tt).

Definition se_when (b : bool) (m : SE unit) : SE unit :=
  if b then m else se_ret tt.

(** [try: m except Exception as e: h e] *)
Definition se_try {A} (m : SE A) (h : exn -> SE A) : SE A :=
  fun w =>
    match m w with
    | (w', Ok a) => (w', Ok a)
    | (w', Raise e) => if is_exception e then h e w' else (w', Raise e)
    end.

Declare Scope se_scope.
Delimit Scope se_scope with se.
Notation "'let*' x ':=' m 'in' k" := (se_bind m (fun x => k))
  (at level 10, x name, m at level 100, k at level 200) : se_scope.
Notation "m ';;;' k" := (se_bind m (fun _ => k))
  (at level 100, k at level 200, right associativity) : se_scope.

(** ** Events and inputs of a capture *)

(** The keyword arguments the handlers of [bootstrap_client] close over. *)
Record HandlerConfig : Type := {
  emit_events : bool;
  collect_chat : bool;
  max_comments : Z;
  max_gifts : Z
}.

(** An event of the client library, with the clock reading its handler
    makes when it builds a record. *)
Inductive event : Type :=
| ConnectEvent (ev : value) (now : pystr)
| DisconnectEvent
| RoomUserSeqEvent (ev : value)
| LikeEvent (ev : value)
| CommentEvent (ev : value) (now : pystr)
| GiftEvent (ev : value) (now : pystr).

(** What the client object does during [bootstrap_client]. *)
Record ClientRun : Type := {
  live_check : value;            (* result of [client.is_live()] *)
  start_error : option pystr;    (* message of the exception [client.start] raises, if any *)
  early_events : list event;     (* events handled during the start and the first sleep *)
  room_info : value;             (* [client.room_info] *)
  client_room_id : value         (* [client.room_id] *)
}.

(** One turn of the sampling loop: a due sample, or an event handled
    during the sleep. *)
Inductive loop_item : Type :=
| LSample (now : pystr)
| LEvent (ev : event).

(** The parsed command line. The sample interval decides the [schedule]
    only; so does the duration, except that a stream whose duration is 0 or
    less has no stop time. *)
Record Args : Type := {
  arg_username : pystr;
  arg_duration_sec : Z;
  arg_max_comments : Z;
  arg_max_gifts : Z;
  arg_collect_chat : bool
}.

Record StreamInputs : Type := {
  env_session_id : option pystr;      (* [os.getenv("TIKTOK_SESSION_ID")] *)
  set_session_error : option pystr;   (* message of the exception [set_session] raises, if any *)
  client : ClientRun;
  now_meta : pystr;
  schedule : list loop_item;
  now_final : pystr;
  disconnect_error : option pystr     (* message of the exception [disconnect] raises, if any *)
}.

(** [str(e)] for the exceptions of the model. *)
Definition exn_message (e : exn) : pystr :=
  match e with
  | OverflowError => lit "cannot convert float infinity to integer"
  | ValueError => lit "cannot convert float NaN to integer"
  | RecursionError msg => msg
  | ClientError msg => msg
  | Interrupted => []
  end.

(** [s.lstrip("@")] *)
Fixpoint lstrip_at (s : pystr) : pystr :=
  match s with
  | c :: s' => if (c =? 64)%N then lstrip_at s' else s
  | [] => []
  end.

(** [(os.getenv(name) or "").strip()] *)
Definition env_stripped (v : option pystr) : pystr :=
  match v with
  | Some s => strip s
  | None => []
  end.

(** What the interpreter decides: [float(s)] on a string ([None] when it
    raises [ValueError]); [str(v)] on a float, a container or an object; the
    frames its recursion limit still allows where [bootstrap_client] reads
    the room information; the text of its [RecursionError]. Only the scans
    of the room information go deeper with their input; every other call
    sits at a fixed depth below the event loop and is taken to have its
    frame. *)
Class Builtins : Type := {
  float_of_str : pystr -> option spec_float;
  repr_other : value -> pystr;
  frames_left : nat;
  recursion_text : pystr
}.

Section Bridge.
Context {builtins : Builtins}.

(** [str(v)] *)
Definition py_str (v : value) : pystr :=
  match v with
  | VNone => lit "None"
  | VBool true => lit "True"
  | VBool false => lit "False"
  | VInt z => str_of_int z
  | VStr s => s
  | _ => repr_other v
  end.

(** ** [to_int], [as_str] *)

Definition to_int (v : value) (default : Z) : result Z :=
  match v with
  | VBool b => Ok (if b then 1 else 0)
  | VInt z => Ok z
  | VFloat f => int_of_float f
  | VStr s =>
      match float_of_str s with
      | Some f =>
          match int_of_float f with
          | Ok z => Ok z
          | Raise _ => Ok default
          end
      | None => Ok default
      end
  | _ => Ok default
  end.

Definition as_str (v : value) : option pystr :=
  match v with
  | VStr s => if str_truthy (strip s) then Some (strip s) else None
  | _ => None
  end.

(** ** The recursive key scans *)

(** [key in keys] for a dictionary key and a set of names. *)
Definition key_in (k : dkey) (keys : gset pystr) : bool :=
  match k with
  | KStr s => bool_decide (s ∈ keys)
  | KInt _ => false
  end.

(** Truth value of an [Optional[str]]. *)
Definition found_truthy (found : option pystr) : bool :=
  match found with
  | Some s => str_truthy s
  | None => false
  end.

(** A call of a Python function made with [spare] frames left: it needs
    one of them. *)
Definition needs_frame {A} (spare : nat) (r : result A) : result A :=
  match spare with
  | O => Raise (RecursionError recursion_text)
  | S _ => r
  end.

(** The [for key, value in data.items()] loop of [find_first_string]. *)
Definition first_string_items (rec : value -> result (option pystr)) (keys : gset pystr) :
    list (dkey * value) -> result (option pystr) :=
  fix go items :=
    match items with
    | [] => Ok None
    | (key, v) :: rest =>
        match (if key_in key keys then as_str v else None) with
        | Some s => Ok (Some s)
        | None =>
            (let* found := rec v in
             if found_truthy found then Ok found else go rest)%result
        end
    end.

(** The [for item in data] loop of [find_first_string]. *)
Definition first_string_list (rec : value -> result (option pystr)) :
    list value -> result (option pystr) :=
  fix go items :=
    match items with
    | [] => Ok None
    | item :: rest =>
        (let* found := rec item in
         if found_truthy found then Ok found else go rest)%result
    end.

(** [find_first_string(data, keys)], called with [frames] frames to spare:
    the call takes one, and raises when there is none. *)
Fixpoint find_first_string (frames : nat) (keys : gset pystr) (data : value) :
    result (option pystr) :=
  match frames with
  | O => Raise (RecursionError recursion_text)
  | S spare =>
      match data with
      | VDict items => first_string_items (find_first_string spare keys) keys items
      | VList items => first_string_list (find_first_string spare keys) items
      | _ => Ok None
      end
  end.

(** The [for key, value in data.items()] loop of [find_max_int], from the
    running maximum [best], with [spare] frames left for its calls. *)
Definition max_int_items (rec : value -> result Z) (spare : nat) (keys : gset pystr) :
    list (dkey * value) -> Z -> result Z :=
  fix go items best :=
    match items with
    | [] => Ok best
    | (key, v) :: rest =>
        (let* best1 := (if key_in key keys
                        then let* n := needs_frame spare (to_int v 0) in Ok (Z.max best n)
                        else Ok best) in
         let* m := rec v in
         go rest (Z.max best1 m))%result
    end.

(** The [for item in data] loop of [find_max_int]. *)
Definition max_int_list (rec : value -> result Z) :
    list value -> Z -> result Z :=
  fix go items best :=
    match items with
    | [] => Ok best
    | item :: rest => (let* m := rec item in go rest (Z.max best m))%result
    end.

(** [find_max_int(data, keys)], called with [frames] frames to spare. *)
Fixpoint find_max_int (frames : nat) (keys : gset pystr) (data : value) : result Z :=
  match frames with
  | O => Raise (RecursionError recursion_text)
  | S spare =>
      match data with
      | VDict items => max_int_items (find_max_int spare keys) spare keys items 0
      | VList items => max_int_list (find_max_int spare keys) items 0
      | _ => Ok 0
      end
  end.

Definition viewer_keys : gset pystr :=
  {[ lit "user_count"; lit "watch_user_count"; lit "viewer_count";
     lit "viewerCount"; lit "room_user_count" ]}.

Definition enter_keys : gset pystr :=
  {[ lit "total_user"; lit "totalUser"; lit "enter_count";
     lit "enterCount"; lit "total_enter_count" ]}.

Definition like_keys : gset pystr :=
  {[ lit "like_count"; lit "likeCount"; lit "m_popularity";
     lit "total_like"; lit "likes" ]}.

Definition title_keys : gset pystr :=
  {[ lit "title"; lit "room_title"; lit "live_title" ]}.

(** The readers of the room information, called with [frames] frames to
    spare: the reader takes one and its scan runs in the rest. *)
Definition parse_current_viewers_from_room_info (frames : nat) (room_info : value) :
    result Z :=
  match frames with
  | O => Raise (RecursionError recursion_text)
  | S spare => (let* n := find_max_int spare viewer_keys room_info in Ok (Z.max 0 n))%result
  end.

Definition parse_total_enters_from_room_info (frames : nat) (room_info : value) :
    result Z :=
  match frames with
  | O => Raise (RecursionError recursion_text)
  | S spare => (let* n := find_max_int spare enter_keys room_info in Ok (Z.max 0 n))%result
  end.

(** ** The event handlers of [bootstrap_client] *)

Section Handlers.
Variable cfg : HandlerConfig.
Local Open Scope se_scope.

Definition on_connect (ev : value) (now : pystr) : SE unit :=
  se_modify (set_is_live true) ;;;
  se_modify (set_status_code 1) ;;;
  let* s := se_get in
  let rid := strip (py_str (py_or (getattr ev "room_id" (VStr [])) (VStr []))) in
  se_modify (set_room_id (if str_truthy rid then Some rid else room_id s)) ;;;
  se_when (emit_events cfg)
    (let* s := se_get in
     se_emit (dict_literal ((lit "type", JStr (lit "meta")) :: snapshot s now))).

Definition on_disconnect : SE unit :=
  let* s := se_get in
  se_when (status_code s =? 1) (se_modify (set_status_code 2)).

Definition on_room_user_seq (ev : value) : SE unit :=
  let* viewers := se_lift (to_int (getattr ev "m_total" (VInt 0)) 0) in
  let* enters := se_lift (to_int (getattr ev "total_user" (VInt 0)) 0) in
  let* likes := se_lift (to_int (getattr ev "m_popularity" (VInt 0)) 0) in
  se_when (0 <? viewers) (se_modify (set_current_viewers viewers)) ;;;
  se_when (0 <? enters)
    (se_modify (fun s => set_current_enters (Z.max (current_enters s) enters) s)) ;;;
  se_when (0 <? likes)
    (se_modify (fun s => set_current_likes (Z.max (current_likes s) likes) s)).

Definition on_like (ev : value) : SE unit :=
  let* total_likes := se_lift (to_int (getattr ev "total" (VInt 0)) 0) in
  se_when (0 <? total_likes)
    (se_modify (fun s => set_current_likes (Z.max (current_likes s) total_likes) s)).

Definition on_comment (ev : value) (now : pystr) : SE unit :=
  let* s := se_get in
  if negb (collect_chat cfg) || (max_comments cfg =? 0) ||
     (max_comments cfg <=? Z.of_nat (length (comments s)))
  then se_ret tt
  else
    let user := getattr ev "user" VNone in
    let row :=
      dict_literal
        [ (lit "createdAt", JStr now);
          (lit "userUniqueId", json_of_opt_str (as_str (getattr user "unique_id" VNone)));
          (lit "nickname", json_of_opt_str (as_str (getattr user "nickname" VNone)));
          (lit "comment",
            JStr (match as_str (getattr ev "comment" VNone) with
                  | Some c => c
                  | None => []
                  end)) ] in
    se_modify (fun s => set_comments (comments s ++ [row]) s) ;;;
    se_when (emit_events cfg)
      (se_emit (dict_literal ((lit "type", JStr (lit "comment")) :: row))).

Definition on_gift (ev : value) (now : pystr) : SE unit :=
  let* s := se_get in
  if negb (collect_chat cfg) || (max_gifts cfg =? 0) ||
     (max_gifts cfg <=? Z.of_nat (length (gifts s)))
  then se_ret tt
  else
    let gift_obj := getattr ev "gift" VNone in
    let gift_info := getattr gift_obj "info" VNone in
    let streakable := truthy (getattr gift_obj "streakable" (VBool false)) in
    let streaking :=
      truthy (py_or (getattr ev "streaking" (VBool false))
                    (getattr gift_obj "streaking" (VBool false))) in
    if streakable && streaking
    then se_ret tt
    else
      let user := getattr ev "user" VNone in
      let* d1 := se_lift (to_int (getattr gift_obj "diamond_count" (VInt 0)) 0) in
      let* d2 := se_lift (to_int (getattr gift_info "diamond_count" (VInt 0)) 0) in
      let diamond_count := Z.max (Z.max 0 d1) d2 in
      let* r1 := se_lift (to_int (getattr ev "repeat_count" (VInt 0)) 0) in
      let* r2 := se_lift (to_int (getattr ev "count" (VInt 0)) 0) in
      let* r3 := se_lift (to_int (getattr gift_obj "count" (VInt 0)) 0) in
      let repeat_count := Z.max (Z.max (Z.max 1 r1) r2) r3 in
      let row :=
        dict_literal
          [ (lit "createdAt", JStr now);
            (lit "userUniqueId", json_of_opt_str (as_str (getattr user "unique_id" VNone)));
            (lit "nickname", json_of_opt_str (as_str (getattr user "nickname" VNone)));
            (lit "giftName", json_of_opt_str (as_str (getattr gift_obj "name" VNone)));
            (lit "diamondCount", JInt diamond_count);
            (lit "repeatCount", JInt repeat_count) ] in
      se_modify (fun s => set_gifts (gifts s ++ [row]) s) ;;;
      se_when (emit_events cfg)
        (se_emit (dict_literal ((lit "type", JStr (lit "gift")) :: row))).

(** The handler registered for an event. *)
Definition handler (e : event) : SE unit :=
  match e with
  | ConnectEvent ev now => on_connect ev now
  | DisconnectEvent => on_disconnect
  | RoomUserSeqEvent ev => on_room_user_seq ev
  | LikeEvent ev => on_like ev
  | CommentEvent ev now => on_comment ev now
  | GiftEvent ev now => on_gift ev now
  end.

(** The client runs the handler of an event; an exception of the handler
    ends the handler and does not reach the capture coroutine. *)
Definition dispatch (w : World) (e : event) : World := fst (handler e w).

Definition handle_events (evs : list event) : SE unit :=
  fun w => (fold_left dispatch evs w, Ok tt).

(** The statements of [bootstrap_client] after the sleep that follows
    [client.start]. *)
Definition read_room_info (c : ClientRun) : SE unit :=
  let info := py_or (room_info c) (VDict []) in
  se_modify (fun s =>
    set_room_id
      (if found_truthy (room_id s) then room_id s
       else if truthy (client_room_id c) then Some (py_str (client_room_id c))
       else None) s) ;;;
  let* found := se_lift (find_first_string frames_left title_keys info) in
  se_modify (set_title found) ;;;
  let* viewers := se_lift (parse_current_viewers_from_room_info frames_left info) in
  se_modify (fun s => set_current_viewers (Z.max (current_viewers s) viewers) s) ;;;
  let* likes := se_lift (find_max_int frames_left like_keys info) in
  se_modify (fun s => set_current_likes (Z.max (current_likes s) likes) s) ;;;
  let* enters := se_lift (parse_total_enters_from_room_info frames_left info) in
  se_modify (fun s => set_current_enters (Z.max (current_enters s) enters) s).

Definition bootstrap_client (precheck_live : bool) (c : ClientRun) : SE bool :=
  if precheck_live && negb (truthy (live_check c))
  then
    se_modify (set_status_code 4) ;;;
    se_modify (set_is_live false) ;;;
    se_ret false
  else
    se_modify (set_is_live true) ;;;
    se_modify (set_status_code 1) ;;;
    match start_error c with
    | Some msg => se_lift (Raise (ClientError msg))
    | None => se_ret tt
    end ;;;
    handle_events (early_events c) ;;;
    read_room_info c ;;;
    se_ret true.

End Handlers.

(** ** The stream mode *)

Local Open Scope se_scope.

(** [apply_optional_session]; [safe_disconnect]. *)
Definition apply_optional_session (inp : StreamInputs) : SE unit :=
  if str_truthy (env_stripped (env_session_id inp))
  then
    match set_session_error inp with
    | Some msg =>
        se_modify (fun s =>
          set_warnings (warnings s ++ [lit "session cookie setup failed: " ++ msg]) s)
    | None => se_ret tt
    end
  else se_ret tt.

Definition safe_disconnect (inp : StreamInputs) : SE unit :=
  match disconnect_error inp with
  | Some msg =>
      se_modify (fun s => set_warnings (warnings s ++ [lit "disconnect warning: " ++ msg]) s)
  | None => se_ret tt
  end.

Definition emit_meta (now : pystr) : SE unit :=
  let* s := se_get in
  se_emit (dict_literal ((lit "type", JStr (lit "meta")) :: snapshot s now)).

Definition emit_sample (now : pystr) : SE unit :=
  let* s := se_get in
  let (s', sample) := add_sample s now in
  se_modify (fun _ => s') ;;;
  se_emit (dict_literal ((lit "type", JStr (lit "sample")) :: sample)).

(** The ["end"] record. *)
Definition end_record (ok live : bool) (warns : list pystr) (error : option pystr) : jdict :=
  dict_literal
    [ (lit "type", JStr (lit "end"));
      (lit "ok", JBool ok);
      (lit "isLive", JBool live);
      (lit "warnings", JList (map JStr warns));
      (lit "error", json_of_opt_str error) ].

Definition emit_end (ok : bool) (live : option bool) (error : option pystr) : SE unit :=
  let* s := se_get in
  se_emit (end_record ok (match live with Some b => b | None => is_live s end)
             (warnings s) error).

Definition loop_turn (cfg : HandlerConfig) (it : loop_item) : SE unit :=
  match it with
  | LSample now => emit_sample now
  | LEvent e => handle_events cfg [e]
  end.

(** The [while stop_at is None or time.monotonic() < stop_at] loop. There is
    a stop time when [duration_sec] is positive, and [items] are the turns
    the loop makes until the clock passes it. Without a stop time the loop
    never ends by itself: [items] are the turns it makes until the process
    is stopped from outside, which interrupts [await asyncio.sleep]. *)
Fixpoint sampling_loop (cfg : HandlerConfig) (duration_sec : Z) (items : list loop_item) :
    SE unit :=
  match items with
  | [] => if 0 <? duration_sec then se_ret tt else se_lift (Raise Interrupted)
  | it :: rest => loop_turn cfg it ;;; sampling_loop cfg duration_sec rest
  end.

Definition stream_config (args : Args) : HandlerConfig :=
  {| emit_events := true;
     collect_chat := arg_collect_chat args;
     max_comments := Z.max 0 (arg_max_comments args);
     max_gifts := Z.max 0 (arg_max_gifts args) |}.

(** The [try] block of [capture_live_stream]. *)
Definition stream_body (args : Args) (inp : StreamInputs) : SE Z :=
  let cfg := stream_config args in
  let* live := bootstrap_client cfg false (client inp) in
  if negb live
  then
    emit_meta (now_meta inp) ;;;
    emit_sample (now_final inp) ;;;
    emit_end true (Some false) None ;;;
    se_ret 0
  else
    emit_meta (now_meta inp) ;;;
    sampling_loop cfg (arg_duration_sec args) (schedule inp) ;;;
    emit_sample (now_final inp) ;;;
    safe_disconnect inp ;;;
    emit_end true (Some true) None ;;;
    se_ret 0.

(** The [except Exception] block of [capture_live_stream]. *)
Definition stream_except (inp : StreamInputs) (e : exn) : SE Z :=
  safe_disconnect inp ;;;
  let text := exn_message e in
  let text :=
    if str_contains (lit "Age restricted stream") text &&
       negb (str_truthy (env_stripped (env_session_id inp)))
    then text ++ lit " | Set TIKTOK_SESSION_ID in .env to access age-restricted lives."
    else text in
  emit_end false None (Some text) ;;;
  se_ret 1.

(** [capture_live_stream(args)], printing to the standard output [o]: the
    final state, the output, and the exit code it returns, or the
    interruption that ends a stream without a stop time. *)
Definition capture_live_stream (args : Args) (inp : StreamInputs) (o : Stdout) :
    World * result Z :=
  let w := {| state := new_state (lstrip_at (strip (arg_username args)));
              stdout := o; emitted := [] |} in
  (apply_optional_session inp ;;;
   se_try (stream_body args inp) (stream_except inp)) w.

(** ** The check and track modes *)

Definition capture_config (args : Args) : HandlerConfig :=
  {| emit_events := false;
     collect_chat := arg_collect_chat args;
     max_comments := Z.max 0 (arg_max_comments args);
     max_gifts := Z.max 0 (arg_max_gifts args) |}.

(** What [capture_live] reads beside the command line: the inputs it shares
    with the stream mode ([now_meta] is the clock reading of the snapshot in
    the payload, [now_final] that of the last sample, [schedule] the turns
    of the track loop), the mode, and the events handled during the probe
    of the check mode. *)
Record CaptureInputs : Type := {
  base : StreamInputs;
  mode : pystr;
  probe_events : list event
}.

(** [state.add_sample()], the sample returned being dropped. *)
Definition take_sample (now : pystr) : SE unit :=
  se_modify (fun s => fst (add_sample s now)).

Fixpoint track_loop (cfg : HandlerConfig) (items : list loop_item) : SE unit :=
  match items with
  | [] => se_ret tt
  | LSample now :: rest => take_sample now ;;; track_loop cfg rest
  | LEvent e :: rest => handle_events cfg [e] ;;; track_loop cfg rest
  end.

(** The payload of a capture that went through. *)
Definition ok_payload (md : pystr) (s : LiveCaptureState) (now : pystr) : jdict :=
  dict_literal
    ([ (lit "ok", JBool true); (lit "mode", JStr md) ] ++
     snapshot s now ++
     [ (lit "samples", JList (map JDict (samples s)));
       (lit "comments", JList (map JDict (comments s)));
       (lit "gifts", JList (map JDict (gifts s)));
       (lit "warnings", JList (map JStr (warnings s))) ]).

(** The payload of a capture that raised. *)
Definition error_payload (md : pystr) (e : exn) (s : LiveCaptureState) : jdict :=
  dict_literal
    [ (lit "ok", JBool false);
      (lit "mode", JStr md);
      (lit "username", JStr (username s));
      (lit "error", JStr (exn_message e));
      (lit "warnings", JList (map JStr (warnings s)));
      (lit "samples", JList (map JDict (samples s)));
      (lit "comments", JList (map JDict (comments s)));
      (lit "gifts", JList (map JDict (gifts s))) ].

Definition return_payload (ci : CaptureInputs) : SE jdict :=
  let* s := se_get in
  se_ret (ok_payload (mode ci) s (now_meta (base ci))).

(** The [try] block of [capture_live]. *)
Definition capture_body (args : Args) (ci : CaptureInputs) : SE jdict :=
  let cfg := capture_config args in
  let inp := base ci in
  let* live := bootstrap_client cfg true (client inp) in
  if negb live
  then
    take_sample (now_final inp) ;;;
    return_payload ci
  else if bool_decide (mode ci = lit "check")
  then
    handle_events cfg (probe_events ci) ;;;
    take_sample (now_final inp) ;;;
    safe_disconnect inp ;;;
    return_payload ci
  else
    track_loop cfg (schedule inp) ;;;
    take_sample (now_final inp) ;;;
    safe_disconnect inp ;;;
    return_payload ci.

(** The [except Exception] block of [capture_live]. *)
Definition capture_except (ci : CaptureInputs) (e : exn) : SE jdict :=
  safe_disconnect (base ci) ;;;
  let* s := se_get in
  se_ret (error_payload (mode ci) e s).

(** [capture_live(args)] *)
Definition capture_live (args : Args) (ci : CaptureInputs) (o : Stdout) :
    World * result jdict :=
  let w := {| state := new_state (lstrip_at (strip (arg_username args)));
              stdout := o; emitted := [] |} in
  (apply_optional_session (base ci) ;;;
   se_try (capture_body args ci) (capture_except ci)) w.

(** The sample of a state in which nothing was counted. *)
Definition zero_sample (now : pystr) : jdict :=
  [ (lit "capturedAt", JStr now); (lit "viewerCount", JInt 0);
    (lit "likeCount", JInt 0); (lit "enterCount", JInt 0) ].

(** [print(s)]: the text and a line break go to the buffer. *)
Definition print_buffered (o : Stdout) (s : pystr) : Stdout :=
  {| written := written o; pending := pending o ++ s ++ [10%N] |}.

(** The interpreter flushes the buffer when the process ends. *)
Definition flush_at_exit (o : Stdout) : Stdout :=
  {| written := written o ++ pending o; pending := [] |}.

(** [main()], run to the end of the process: what the consumer has
    received and the exit status. An exception that escapes ends the
    process with status 1. A process stopped from outside has no status of
    its own: the consumer has what was written until then. *)
Definition exit_of (w : World) (status : Z) (r : result Z) : Stdout * option Z :=
  match r with
  | Ok code => (flush_at_exit (stdout w), Some code)
  | Raise Interrupted => (stdout w, None)
  | Raise _ => (flush_at_exit (stdout w), Some status)
  end.

Definition main (args : Args) (ci : CaptureInputs) (o : Stdout) : Stdout * option Z :=
  if bool_decide (mode ci = lit "stream")
  then
    match capture_live_stream args (base ci) o with
    | (w, r) => exit_of w 1 r
    end
  else
    match capture_live args ci o with
    | (w, Ok payload) =>
        (flush_at_exit (print_buffered (stdout w) (json_dumps (JDict payload))), Some 0)
    | (w, Raise Interrupted) => (stdout w, None)
    | (w, Raise _) => (flush_at_exit (stdout w), Some 1)
    end.

(** ** Runs of the bridge *)

(** What changes the capture state while a capture runs: an event handled,
    the room information read at the end of [bootstrap_client], a sample
    taken by the sampling loop. *)
Inductive step : Type :=
| SEvent (e : event)
| SRoomInfo (c : ClientRun)
| SSample (now : pystr).

Definition do_step (cfg : HandlerConfig) (w : World) (s : step) : World :=
  match s with
  | SEvent e => dispatch cfg w e
  | SRoomInfo c => fst (read_room_info c w)
  | SSample now => fst (emit_sample now w)
  end.

Definition run (cfg : HandlerConfig) (steps : list step) (w : World) : World :=
  fold_left (do_step cfg) steps w.

Definition new_world (name : pystr) : World :=
  {| state := new_state name; stdout := stdout_empty; emitted := [] |}.

(** ** The key scan, as the specification words it *)

(** Every value bound to a key of [keys] at any nesting depth of [data],
    in the order of the scan. *)
Fixpoint bound_values (keys : gset pystr) (data : value) : list value :=
  match data with
  | VDict items =>
      flat_map
        (fun kv =>
           (if key_in (fst kv) keys then [snd kv] else []) ++ bound_values keys (snd kv))
        items
  | VList items => flat_map (bound_values keys) items
  | _ => []
  end.

(** The nesting depth of a structure: 1 for a scalar and for an empty
    container, one more than its deepest member for a container. It is the
    number of frames a scan of the structure takes at its deepest point. *)
Fixpoint nesting (data : value) : nat :=
  match data with
  | VDict items => S (fold_right (fun kv d => Nat.max (nesting (snd kv)) d) 0%nat items)
  | VList items => S (fold_right (fun v d => Nat.max (nesting v) d) 0%nat items)
  | _ => 1%nat
  end.

(** The maximum of 0 and the numbers of a list. *)
Definition max_with_zero (ns : list Z) : Z := fold_right Z.max 0 ns.

Definition find_max_int_spec (keys : gset pystr) (data : value) : result Z :=
  (let* ns := rmapM (fun v => to_int v 0) (bound_values keys data) in
   Ok (max_with_zero ns))%result.


(** A string that does not start with white space. *)
Definition starts_clean (s : pystr) : Prop :=
  match s with
  | [] => True
  | c :: _ => py_isspace c = false
  end.

(** A string with white space neither at its start nor at its end. *)
Definition trimmed (s : pystr) : Prop :=
  match s with
  | [] => True
  | c :: _ => py_isspace c = false /\ py_isspace (List.last s c) = false
  end.

End Bridge.

(** ** Shapes of the printed records *)

(** A code point that prints as itself in ASCII: space to tilde. *)
Definition printable_ascii (c : N) : Prop := (32 <= c <= 126)%N.

Definition is_scalar (j : json) : bool :=
  match j with
  | JList _ | JDict _ => false
  | _ => true
  end.

(** A flat record: every field is a scalar. *)
Definition flat_record (d : jdict) : bool := forallb (fun kv => is_scalar (snd kv)) d.

Definition is_str_list (j : json) : bool :=
  match j with
  | JList items => forallb (fun x => match x with JStr _ => true | _ => false end) items
  | _ => false
  end.

(** A record whose fields are scalars except ["warnings"], a list of strings. *)
Definition flat_but_warnings (d : jdict) : bool :=
  forallb
    (fun kv => is_scalar (snd kv) ||
               (bool_decide (fst kv = lit "warnings") && is_str_list (snd kv)))
    d.

Definition is_end_record (d : jdict) : bool :=
  match assoc (lit "type") d with
  | Some (JStr t) => bool_decide (t = lit "end")
  | _ => false
  end.

(** The shape of the records of the stream: ["end"] records carry their
    warnings as a list, every other record is flat. *)
Definition record_shape (d : jdict) : bool :=
  if is_end_record d then flat_but_warnings d else flat_record d.

(** The records of a list that are ["end"] records. *)
Definition end_records (ps : list jdict) : list jdict := List.filter is_end_record ps.

(** The line [emit_line] prints for a payload. *)
Definition line_of (payload : jdict) : pystr := json_dumps (JDict payload) ++ [10%N].

(** A count field of a snapshot or a sample is a non-negative int. *)
Definition nonneg_field (name : string) (d : jdict) : Prop :=
  exists n, assoc (lit name) d = Some (JInt n) /\ 0 <= n.

Definition counts_nonneg (d : jdict) : Prop :=
  nonneg_field "viewerCount" d /\ nonneg_field "likeCount" d /\ nonneg_field "enterCount" d.

(** The counters of [s'] are not behind those of [s]: likes and enters
    have not decreased, a positive viewer count has not been lost. *)
Definition counters_kept (s s' : LiveCaptureState) : Prop :=
  current_likes s <= current_likes s' /\
  current_enters s <= current_enters s' /\
  (0 < current_viewers s -> 0 < current_viewers s').

(** A relation between the world before and the world after that holds
    when nothing happens and composes along a sequence of operations. *)
Class Stable (R : World -> World -> Prop) : Prop := {
  stable_refl : forall w, R w w;
  stable_trans : forall a b c, R a b -> R b c -> R a c
}.

Definition respects {A} (R : World -> World -> Prop) (m : SE A) : Prop :=
  forall w, R w (fst (m w)).

(** A result, and an operation, that is not an interruption: the code
    returned or raised an exception of its own. *)
Definition own_result {A} (r : result A) : Prop := r <> Raise Interrupted.

Definition ends_by_itself {A} (m : SE A) : Prop := forall w, own_result (snd (m w)).

(** The three relations of this development: the counters are kept, the
    samples stay the recorded ones, the output grows by well-shaped lines. *)
Definition counters_rel (w w' : World) : Prop :=
  counters_kept (state w) (state w').

Definition samples_rel (w w' : World) : Prop :=
  exists new, samples (state w') = samples (state w) ++ new /\ Forall counts_nonneg new.

Definition output_rel (w w' : World) : Prop :=
  exists ps,
    emitted w' = emitted w ++ ps /\
    stdout w' = fold_left (fun o p => emit_line p o) ps (stdout w) /\
    Forall (fun p => record_shape p = true) ps.

(** More relations between the world before and the world after: the
    chat records are untouched; nothing was printed; what was emitted holds
    no ["end"] record; the live flag and the status code are kept in
    range. *)
Definition chat_rel (w w' : World) : Prop :=
  comments (state w') = comments (state w) /\ gifts (state w') = gifts (state w).

Definition silent_rel (w w' : World) : Prop :=
  stdout w' = stdout w /\ emitted w' = emitted w.

Definition no_end_rel (w w' : World) : Prop :=
  exists ps, emitted w' = emitted w ++ ps /\ end_records ps = [].

Definition known_status (code : Z) : Prop :=
  code = 0 \/ code = 1 \/ code = 2 \/ code = 4.

Definition live_rel (w w' : World) : Prop :=
  (is_live (state w) = true -> is_live (state w') = true) /\
  (known_status (status_code (state w)) -> known_status (status_code (state w'))).

(** The chat records respect the caps of the configuration, and there are
    none when the chat is not collected. *)
Definition chat_within (cfg : HandlerConfig) (s : LiveCaptureState) : Prop :=
  Z.of_nat (length (comments s)) <= Z.max 0 (max_comments cfg) /\
  Z.of_nat (length (gifts s)) <= Z.max 0 (max_gifts cfg) /\
  (collect_chat cfg = false -> comments s = [] /\ gifts s = []).

Definition caps_rel (cfg : HandlerConfig) (w w' : World) : Prop :=
  chat_within cfg (state w) -> chat_within cfg (state w').

(** A gift row counts at least zero diamonds and at least one repeat; a
    comment row has a text, never a null. *)
Definition gift_row_ok (d : jdict) : Prop :=
  exists dc rc,
    assoc (lit "diamondCount") d = Some (JInt dc) /\ 0 <= dc /\
    assoc (lit "repeatCount") d = Some (JInt rc) /\ 1 <= rc.

Definition comment_row_ok (d : jdict) : Prop :=
  exists text, assoc (lit "comment") d = Some (JStr text).

Definition rows_rel (w w' : World) : Prop :=
  exists cs gs,
    comments (state w') = comments (state w) ++ cs /\ Forall comment_row_ok cs /\
    gifts (state w') = gifts (state w) ++ gs /\ Forall gift_row_ok gs.

(** The records of a list that are ["sample"] records, and a sample made
    into such a record. *)
Definition is_sample_record (d : jdict) : bool :=
  match assoc (lit "type") d with
  | Some (JStr t) => bool_decide (t = lit "sample")
  | _ => false
  end.

Definition sample_record (sample : jdict) : jdict :=
  dict_literal ((lit "type", JStr (lit "sample")) :: sample).

Definition sample_log_rel (w w' : World) : Prop :=
  exists new,
    samples (state w') = samples (state w) ++ new /\
    List.filter is_sample_record (emitted w') =
      List.filter is_sample_record (emitted w) ++ map sample_record new.

(** * The donation-goal display, [Pianothon.py] *)

Module Pianothon.

(** A gift event of the client library, as the handler reads it:
    [event.gift.streakable], [event.gift.streaking],
    [event.gift.info.diamond_count], [event.gift.count] and
    [event.user.nickname]. *)
Record GiftEvent : Type := {
  streakable : bool;
  streaking : bool;
  diamond_count : Z;
  count : Z;
  nickname : pystr
}.

(** The two values made with [manager.Value] and handed to the rendering
    process: both processes hold a proxy of each. *)
Record Shared : Type := {
  totalcoins : Z;
  thankstr : pystr
}.

Definition shared_init : Shared := {| totalcoins := 0; thankstr := [] |}.

Definition thankvalue : Z := 1.

(** The event process: the shared values and the lines it has printed. *)
Definition Main : Type := (Shared * list pystr)%type.

Definition print (line : pystr) (m : Main) : Main := (fst m, snd m ++ [line]).

(** [giftreceived(coins)] *)
Definition giftreceived (coins : Z) (m : Main) : Main :=
  let sh := {| totalcoins := totalcoins (fst m) + coins; thankstr := thankstr (fst m) |} in
  print (lit "total coins: " ++ str_of_int (totalcoins sh)) (sh, snd m).

Definition thank (amount : Z) (nick : pystr) (m : Main) : Main :=
  if thankvalue <=? amount
  then
    let sh := {| totalcoins := totalcoins (fst m); thankstr := lit "Thanks to " ++ nick |} in
    print (thankstr sh) (sh, snd m)
  else m.

(** The ["gift"] handler. *)
Definition on_gift (ev : GiftEvent) (m : Main) : Main :=
  if streakable ev && negb (streaking ev)
  then
    let amount := diamond_count ev * count ev in
    thank amount (nickname ev) (giftreceived amount (print (str_of_int amount) m))
  else if negb (streakable ev)
  then
    let amount := diamond_count ev in
    thank amount (nickname ev) (giftreceived amount (print (str_of_int amount) m))
  else m.

(** The rendering process. Of the locals of [mainloop] the model keeps the
    integer and string ones; the timer text, the pie angle and the added
    minutes are floating-point values and are left out. *)
Record RenderLocal : Type := {
  running : bool;
  coinsthres : Z;
  thanklist : list pystr;
  activethank : pystr
}.

Definition basecoinsthres : Z := 15.
Definition incr : Z := 5.

Definition render_init : RenderLocal :=
  {| running := true; coinsthres := basecoinsthres; thanklist := []; activethank := [] |}.

(** The texts of one frame that are built from integers and strings. *)
Record Frame : Type := {
  coins_text : pystr;     (* "<coins mod threshold>/<threshold> Coins" *)
  total_text : pystr;     (* the running total, top left *)
  info_text : pystr;      (* "For every <threshold> coins" *)
  thank_text : pystr      (* the active thank-you line *)
}.

(** What one turn of the loop reads through the two proxies. Every
    [.value] is a request to the manager process and the event process may
    write between two of them, so each read has a result of its own. The
    read of [reached = totalcoins.value / coinsthres] feeds floating-point
    values only and is left out. *)
Record TurnReads : Type := {
  thank_tested : pystr;       (* [thankstr.value not in thanklist] *)
  thank_appended : pystr;     (* [thanklist.append(thankstr.value)] *)
  thank_updated : pystr;      (* [updatethank()] *)
  coins_compared : nat -> Z;  (* the tests of the [if]/[elif] chain, from 0 *)
  coins_shown : Z;            (* [totalcoins.value%coinsthres] *)
  coins_total : Z             (* [str(totalcoins.value)] *)
}.

(** The reads of a turn during which the event process writes nothing. *)
Definition steady (sh : Shared) : TurnReads :=
  {| thank_tested := thankstr sh; thank_appended := thankstr sh;
     thank_updated := thankstr sh; coins_compared := fun _ => totalcoins sh;
     coins_shown := totalcoins sh; coins_total := totalcoins sh |}.

(** The [if]/[elif] chain that picks the threshold, with what it prints;
    each test reads the counter again; above the last bound the threshold
    stays as it is. *)
Definition pick_threshold (coins : nat -> Z) (old : Z) : Z * list pystr :=
  if coins 0%nat <? 15 * basecoinsthres then (basecoinsthres, [lit "1 QUARTER"])
  else if coins 1%nat <? 15 * basecoinsthres + incr * 1 then (basecoinsthres + incr * 1, [lit "2 QUARTER"])
  else if coins 2%nat <? 15 * basecoinsthres + incr * 2 then (basecoinsthres + incr * 2, [lit "3 QUARTER"])
  else if coins 3%nat <? 15 * basecoinsthres + incr * 3 then (basecoinsthres + incr * 3, [])
  else if coins 4%nat <? 15 * basecoinsthres + incr * 4 then (basecoinsthres + incr * 4, [])
  else if coins 5%nat <? 15 * basecoinsthres + incr * 5 then (basecoinsthres + incr * 5, [])
  else if coins 6%nat <? 15 * basecoinsthres + incr * 6 then (basecoinsthres + incr * 6, [])
  else if coins 7%nat <? 15 * basecoinsthres + incr * 7 then (basecoinsthres + incr * 7, [])
  else if coins 8%nat <? 15 * basecoinsthres + incr * 8 then (basecoinsthres + incr * 8, [])
  else (old, []).

(** One turn of the [while running] loop: [rd] is what it reads of the
    shared values, [millis] the clock reading, [quit] tells whether a QUIT
    event was in the queue. The shared values are only read. *)
Definition mainloop_turn (rd : TurnReads) (millis : Z) (quit : bool) (loc : RenderLocal) :
    RenderLocal * list pystr * Frame :=
  let thanks :=
    if bool_decide (thank_tested rd ∈ thanklist loc) then thanklist loc
    else thanklist loc ++ [thank_appended rd] in
  let active := if millis mod 4000 <? 40 then thank_updated rd else activethank loc in
  let '(thres, printed) := pick_threshold (coins_compared rd) (coinsthres loc) in
  ({| running := if quit then false else running loc;
      coinsthres := thres; thanklist := thanks; activethank := active |},
   printed,
   {| coins_text := str_of_int (coins_shown rd mod thres) ++ lit "/" ++ str_of_int thres ++ lit " Coins";
      total_text := str_of_int (coins_total rd);
      info_text := lit "For every " ++ str_of_int thres ++ lit " coins";
      thank_text := active |}).

(** The inner loop of [calcminadded], [n] turns at one price: the count
    returned ([inl]), or the coins and the count it goes on with ([inr]). *)
Fixpoint minute_loop (n : nat) (price coins added : Z) : Z + Z * Z :=
  match n with
  | O => inr (coins, added)
  | S n' =>
      let coins' := coins - price in
      if coins' <? 0 then inl added else minute_loop n' price coins' (added + 1)
  end.

(** The outer loop, over the quarters [qs]; [None] when the loops run out
    and the function falls off its end. *)
Fixpoint quarter_loop (qs : list Z) (coins added : Z) : option Z :=
  match qs with
  | [] => None
  | q :: qs' =>
      match minute_loop 15 (basecoinsthres + incr * q) coins added with
      | inl a => Some a
      | inr (coins', added') => quarter_loop qs' coins' added'
      end
  end.

(** [calcminadded(c)] *)
Definition calcminadded (c : Z) : option Z :=
  quarter_loop (map Z.of_nat (seq 0 30)) c 0.

(** The price of the minute number [k] (from 0): 15 coins in the first
    quarter of an hour, 5 more in each later one. *)
Definition minute_price (k : Z) : Z := basecoinsthres + incr * (k / 15).

(** The price of the first [n] minutes. *)
Fixpoint minutes_cost (n : nat) : Z :=
  match n with
  | O => 0
  | S n' => minutes_cost n' + minute_price (Z.of_nat n')
  end.

(** The [while running] loop over the turns it is given, each with its
    reads of the shared values, the clock reading and the QUIT flag of that
    turn: the locals when the loop stops or the turns run out. *)
Fixpoint mainloop_run (turns : list (TurnReads * Z * bool)) (loc : RenderLocal) : RenderLocal :=
  match turns with
  | [] => loc
  | (rd, millis, quit) :: rest =>
      if running loc
      then mainloop_run rest (fst (fst (mainloop_turn rd millis quit loc)))
      else loc
  end.

(** The turns in which the two reads of the thank-you string around the
    append, the test and the argument, see the same text. *)
Definition appends_what_it_tested (turns : list (TurnReads * Z * bool)) : Prop :=
  List.Forall (fun t => thank_tested (fst (fst t)) = thank_appended (fst (fst t))) turns.

(** What a gift adds to the coin total. *)
Definition gift_coins (ev : GiftEvent) : Z :=
  if streakable ev
  then if streaking ev then 0 else diamond_count ev * count ev
  else diamond_count ev.


End Pianothon.

(** ** Values [to_int] converts without raising *)

(** A float that is neither an infinity nor NaN. *)
Definition finite_float (f : spec_float) : bool :=
  match f with
  | S754_infinity _ | S754_nan => false
  | _ => true
  end.

Definition safe_for_to_int (v : value) : bool :=
  match v with
  | VFloat f => finite_float f
  | _ => true
  end.

(** * Concrete inputs *)

(** An instance of the builtins, to run the model: [float(s)] reads the
    signed decimal integer literals, rounded to the nearest binary64 value,
    and raises on every other string; [str] of a float, a container or an
    object is a fixed text. The properties below are proved for every
    instance. *)
Definition digit_value (c : N) : option N :=
  (if (48 <=? c) && (c <=? 57) then Some (c - 48) else None)%N.

Fixpoint decimal_value (s : pystr) (acc : N) : option N :=
  match s with
  | [] => Some acc
  | c :: s' =>
      match digit_value c with
      | Some d => decimal_value s' (10 * acc + d)%N
      | None => None
      end
  end.

Definition float_of_integer_literal (s : pystr) : option spec_float :=
  let '(neg, body) :=
    match strip s with
    | 45%N :: r => (true, r)
    | 43%N :: r => (false, r)
    | r => (false, r)
    end in
  match body with
  | [] => None
  | _ =>
      match decimal_value body 0 with
      | Some n =>
          Some (binary_normalize 53 1024 (if neg then - Z.of_N n else Z.of_N n) 0 neg)
      | None => None
      end
  end.

Definition integer_literals : Builtins :=
  {| float_of_str := float_of_integer_literal;
     repr_other := fun _ => lit "<object>";
     frames_left := 980;
     recursion_text := lit "maximum recursion depth exceeded" |}.

(** A room whose viewer counter arrived as the float infinity, as
    [json.loads] reads the literals [Infinity] and [1e999]. *)
Definition room_with_infinite_counter : value :=
  VDict [(KStr (lit "user_count"), VFloat (S754_infinity false))].

(** A room whose only content sits inside 1000 nested lists. *)
Definition deep_room : value := Nat.iter 1000 (fun v => VList [v]) (VInt 1).

(** A room with viewer counters at three places: under a nested
    dictionary, as a numeric string inside a list, and as a value that is
    not a number. *)
Definition nested_room : value :=
  VDict
    [ (KStr (lit "stats"), VDict [(KStr (lit "user_count"), VInt 12)]);
      (KStr (lit "rooms"),
       VList [VDict [(KStr (lit "viewer_count"), VStr (lit " 40 "))]; VInt 1000]);
      (KStr (lit "viewerCount"), VNone);
      (KStr (lit "total_user"), VInt 5000) ].


(** A stream in which nothing happens: the client starts, no event
    arrives, the loop ends at once. *)
Definition quiet_args : Args :=
  {| arg_username := lit "@streamer"; arg_duration_sec := 60;
     arg_max_comments := 1200;
     arg_max_gifts := 900; arg_collect_chat := false |}.

Definition quiet_inputs : StreamInputs :=
  {| env_session_id := None;
     set_session_error := None;
     client := {| live_check := VBool true; start_error := None; early_events := [];
                  room_info := VDict []; client_room_id := VNone |};
     now_meta := lit "2024-01-01T00:00:00+00:00";
     schedule := [];
     now_final := lit "2024-01-01T00:01:00+00:00";
     disconnect_error := None |}.

(** A world that has recorded seven viewers, and an event that reports none. *)
Definition seven_viewers : World :=
  {| state := set_current_viewers 7 (new_state (lit "streamer"));
     stdout := stdout_empty; emitted := [] |}.

Definition empty_room_event : value := VObj [(lit "m_total", VInt 0)].

Definition chat_config : HandlerConfig :=
  {| emit_events := true; collect_chat := true; max_comments := 1200; max_gifts := 900 |}.

(** Three gifts: a finished streak of three roses, a single gift that
    cannot streak, a streak still running. *)
Definition finished_streak : Pianothon.GiftEvent :=
  {| Pianothon.streakable := true; Pianothon.streaking := false;
     Pianothon.diamond_count := 5; Pianothon.count := 3;
     Pianothon.nickname := lit "ann" |}.

Definition single_gift : Pianothon.GiftEvent :=
  {| Pianothon.streakable := false; Pianothon.streaking := false;
     Pianothon.diamond_count := 99; Pianothon.count := 1;
     Pianothon.nickname := lit "bob" |}.

Definition running_streak : Pianothon.GiftEvent :=
  {| Pianothon.streakable := true; Pianothon.streaking := true;
     Pianothon.diamond_count := 5; Pianothon.count := 2;
     Pianothon.nickname := lit "ann" |}.

Definition main_init : Pianothon.Main := (Pianothon.shared_init, []).

(** Two states of the shared values that differ from the initial one in
    one value each. *)
Definition thanked : Pianothon.Shared :=
  {| Pianothon.totalcoins := 0; Pianothon.thankstr := lit "Thanks to ann" |}.

Definition funded : Pianothon.Shared :=
  {| Pianothon.totalcoins := 15; Pianothon.thankstr := [] |}.

(** Two turns of the rendering loop with nothing written in between, and
    two turns in which the event process thanks ann again after the loop has
    tested a thanks to bob and before it appends. *)
Definition calm_turns : list (Pianothon.TurnReads * Z * bool) :=
  [ (Pianothon.steady thanked, 0, false); (Pianothon.steady funded, 50, false) ].

Definition raced_turns : list (Pianothon.TurnReads * Z * bool) :=
  [ (Pianothon.steady thanked, 0, false);
    ({| Pianothon.thank_tested := lit "Thanks to bob";
        Pianothon.thank_appended := lit "Thanks to ann";
        Pianothon.thank_updated := lit "Thanks to ann";
        Pianothon.coins_compared := fun _ => 0;
        Pianothon.coins_shown := 0;
        Pianothon.coins_total := 0 |}, 50, false) ].

(** The arguments of a stream without a stop time. *)
Definition endless_args : Args :=
  {| arg_username := lit "@streamer"; arg_duration_sec := 0;
     arg_max_comments := 1200; arg_max_gifts := 900; arg_collect_chat := false |}.

(** A stream whose client refuses to start, and captures in each mode. *)
Definition age_restricted_inputs : StreamInputs :=
  {| env_session_id := None;
     set_session_error := None;
     client := {| live_check := VBool true;
                  start_error := Some (lit "Age restricted stream");
                  early_events := []; room_info := VDict []; client_room_id := VNone |};
     now_meta := lit "2024-01-01T00:00:00+00:00";
     schedule := [];
     now_final := lit "2024-01-01T00:01:00+00:00";
     disconnect_error := None |}.

Definition offline_inputs : StreamInputs :=
  {| env_session_id := None;
     set_session_error := None;
     client := {| live_check := VBool false; start_error := None; early_events := [];
                  room_info := VDict []; client_room_id := VNone |};
     now_meta := lit "2024-01-01T00:00:00+00:00";
     schedule := [];
     now_final := lit "2024-01-01T00:01:00+00:00";
     disconnect_error := None |}.

Definition offline_check : CaptureInputs :=
  {| base := offline_inputs; mode := lit "check"; probe_events := [] |}.

Definition quiet_track : CaptureInputs :=
  {| base := quiet_inputs; mode := lit "track"; probe_events := [] |}.

Definition quiet_stream : CaptureInputs :=
  {| base := quiet_inputs; mode := lit "stream"; probe_events := [] |}.

(** Handlers that do not print, a connect event, and a world that is live. *)
Definition quiet_config : HandlerConfig :=
  {| emit_events := false; collect_chat := true; max_comments := 1200; max_gifts := 900 |}.

Definition room_seven_connects : event :=
  ConnectEvent (VObj [(lit "room_id", VInt 7)]) (lit "2024-01-01T00:00:00+00:00").

Definition live_world : World :=
  {| state := set_status_code 1 (set_is_live true (new_state (lit "streamer")));
     stdout := stdout_empty; emitted := [] |}.

(** * Properties *)

(** ** The result monad *)

Lemma rmapM_app {A B} (f : A -> result B) (l1 l2 : list A) :
  rmapM f (l1 ++ l2) =
  (let* a := rmapM f l1 in let* b := rmapM f l2 in Ok (a ++ b))%result.
Proof.
  induction l1 as [|x l1 IH]; simpl.
  - destruct (rmapM f l2); reflexivity.
  - destruct (f x) as [y|e]; simpl; [|reflexivity].
    rewrite IH. destruct (rmapM f l1) as [a|e]; simpl; [|reflexivity].
    destruct (rmapM f l2); reflexivity.
Qed.

Lemma max_with_zero_nonneg (ns : list Z) : 0 <= max_with_zero ns.
Proof. induction ns as [|n ns IH]; simpl; lia. Qed.

Lemma max_with_zero_app (a b : list Z) :
  max_with_zero (a ++ b) = Z.max (max_with_zero a) (max_with_zero b).
Proof.
  induction a as [|n a IH]; simpl.
  - pose proof (max_with_zero_nonneg b). lia.
  - rewrite IH. lia.
Qed.

Lemma max_with_zero_upper (ns : list Z) (n : Z) : In n ns -> n <= max_with_zero ns.
Proof.
  induction ns as [|m ns IH]; simpl; [tauto|].
  intros [->|H]; [lia|]. specialize (IH H). lia.
Qed.

Lemma max_with_zero_attained (ns : list Z) :
  max_with_zero ns = 0 \/ In (max_with_zero ns) ns.
Proof.
  induction ns as [|m ns IH]; simpl; [tauto|].
  destruct (Z.max_spec m (max_with_zero ns)) as [[_ ->]|[_ ->]]; tauto.
Qed.

(** ** Relations every operation of the monad respects *)

Section Respects.
Context (R : World -> World -> Prop) `{!Stable R}.

Lemma respects_ret {A} (a : A) : respects R (se_ret a).
Proof. intros w. apply stable_refl. Qed.

Lemma respects_lift {A} (r : result A) : respects R (se_lift r).
Proof. intros w. apply stable_refl. Qed.

Lemma respects_get : respects R se_get.
Proof. intros w. apply stable_refl. Qed.

Lemma respects_bind {A B} (m : SE A) (k : A -> SE B) :
  respects R m -> (forall a, respects R (k a)) -> respects R (se_bind m k).
Proof.
  intros Hm Hk w. unfold se_bind.
  specialize (Hm w). destruct (m w) as [w' [a|e]]; simpl in *; [|exact Hm].
  eapply stable_trans; [exact Hm|apply Hk].
Qed.

Lemma respects_when (b : bool) (m : SE unit) :
  (b = true -> respects R m) -> respects R (se_when b m).
Proof.
  intros Hm. destruct b; simpl; [apply Hm; reflexivity|apply respects_ret].
Qed.

Lemma respects_try {A} (m : SE A) (h : exn -> SE A) :
  respects R m -> (forall e, respects R (h e)) -> respects R (se_try m h).
Proof.
  intros Hm Hh w. unfold se_try.
  specialize (Hm w). destruct (m w) as [w' [a|e]]; simpl in *; [exact Hm|].
  destruct (is_exception e); [|exact Hm].
  eapply stable_trans; [exact Hm|apply Hh].
Qed.

Lemma respects_modify (f : LiveCaptureState -> LiveCaptureState) :
  (forall w, R w {| state := f (state w); stdout := stdout w; emitted := emitted w |}) ->
  respects R (se_modify f).
Proof. intros H w. apply H. Qed.

Lemma respects_emit (payload : jdict) :
  (forall w, R w {| state := state w;
                    stdout := emit_line payload (stdout w);
                    emitted := emitted w ++ [payload] |}) ->
  respects R (se_emit payload).
Proof. intros H w. apply H. Qed.

Lemma respects_fold {X} (f : World -> X -> World) :
  (forall w x, R w (f w x)) -> forall xs w, R w (fold_left f xs w).
Proof.
  intros Hf xs. induction xs as [|x xs IH]; intros w; simpl.
  - apply stable_refl.
  - eapply stable_trans; [apply Hf|apply IH].
Qed.
End Respects.

(** Walks down an operation built from the combinators of the monad;
    [leaf] closes what is asked of each [se_modify] and [se_emit]. *)
Ltac respects_walk leaf :=
  repeat (lazy zeta;
    match goal with
    | |- Stable _ => typeclasses eauto
    | |- forall _, _ => intros ?
    | |- respects _ (se_bind _ _) => apply respects_bind
    | |- respects _ (se_ret _) => apply respects_ret
    | |- respects _ (se_lift _) => apply respects_lift
    | |- respects _ se_get => apply respects_get
    | |- respects _ (se_when _ _) => apply respects_when
    | |- respects _ (se_modify _) => apply respects_modify
    | |- respects _ (se_emit _) => apply respects_emit
    | |- respects _ (if ?b then _ else _) => destruct b eqn:?
    | |- respects _ (match ?x with _ => _ end) => destruct x eqn:?
    | |- _ => solve [leaf]
    end).

(** Run the first operation of a sequence when it is a [se_modify], or a
    [se_lift] (whose exception ends the handler where it stands). *)
Ltac run_modify :=
  match goal with
  | |- context [fst (se_bind (se_modify ?f) ?k ?w)] =>
      change (fst (se_bind (se_modify f) k w))
        with (fst (k tt {| state := f (state w); stdout := stdout w;
                           emitted := emitted w |}));
      cbv beta
  end.

Ltac run_lift :=
  match goal with
  | |- context [fst (se_bind (se_lift ?r) ?k ?w)] =>
      let n := fresh "n" in
      let e := fresh "e" in
      destruct r as [n|e];
      [ change (fst (se_bind (se_lift (Ok n)) k w)) with (fst (k n w)); cbv beta
      | intros Hsame; exact Hsame ]
  end.

(** ** The serialization is printable ASCII *)

Ltac printable_code :=
  unfold printable_ascii; split; vm_compute; intros Hcmp; discriminate Hcmp.

Ltac printable_literal :=
  repeat first [apply List.Forall_nil | apply List.Forall_cons; [printable_code|]].

Lemma digits_fuel_printable (fuel : nat) : forall n acc,
  Forall printable_ascii acc -> Forall printable_ascii (digits_fuel fuel n acc).
Proof.
  induction fuel as [|fuel IH]; intros n acc Hacc; simpl; [exact Hacc|].
  assert (Hd : printable_ascii (48 + n mod 10)%N).
  { unfold printable_ascii.
    assert (n mod 10 < 10)%N by (apply N.mod_lt; discriminate).
    generalize dependent (n mod 10)%N. intros; lia. }
  destruct (n <? 10)%N.
  - constructor; assumption.
  - apply IH. constructor; assumption.
Qed.

Lemma str_of_int_printable (z : Z) : Forall printable_ascii (str_of_int z).
Proof.
  unfold str_of_int, str_of_N.
  destruct (z <? 0).
  - constructor; [unfold printable_ascii; lia|].
    apply digits_fuel_printable. constructor.
  - apply digits_fuel_printable. constructor.
Qed.

Lemma hex_digit_printable (n : N) : (n < 16)%N -> printable_ascii (hex_digit n).
Proof.
  intros Hn. unfold hex_digit, printable_ascii.
  destruct (N.ltb_spec n 10); lia.
Qed.

Lemma hex4_printable (n : N) : Forall printable_ascii (hex4 n).
Proof.
  unfold hex4.
  repeat constructor; apply hex_digit_printable; apply N.mod_lt; discriminate.
Qed.

Lemma escape_char_printable (c : N) : Forall printable_ascii (escape_char c).
Proof.
  unfold escape_char.
  repeat match goal with
         | |- context [if (?a =? ?b)%N then _ else _] =>
             destruct (N.eqb_spec a b); [printable_literal|]
         end.
  destruct ((32 <=? c)%N && (c <=? 126)%N) eqn:Hin.
  - apply andb_true_iff in Hin as [H1 H2].
    apply N.leb_le in H1. apply N.leb_le in H2.
    constructor; [unfold printable_ascii; lia|constructor].
  - destruct (c <? 65536)%N.
    + apply Forall_app. split; [printable_literal|apply hex4_printable].
    + cbv zeta.
      repeat (apply Forall_app; split);
        first [apply hex4_printable | printable_literal].
Qed.

Lemma encode_basestring_ascii_printable (s : pystr) :
  Forall printable_ascii (encode_basestring_ascii s).
Proof.
  unfold encode_basestring_ascii.
  constructor; [unfold printable_ascii; lia|].
  apply Forall_app. split; [|printable_literal].
  induction s as [|c s IH]; simpl; [constructor|].
  apply Forall_app. split; [apply escape_char_printable|exact IH].
Qed.

Lemma join_printable (sep : pystr) (parts : list pystr) :
  Forall printable_ascii sep ->
  Forall (Forall printable_ascii) parts ->
  Forall printable_ascii (join sep parts).
Proof.
  intros Hsep Hparts.
  induction Hparts as [|p rest Hp Hrest IH]; simpl; [constructor|].
  destruct rest as [|q rest]; [exact Hp|].
  apply Forall_app. split; [exact Hp|].
  apply Forall_app. split; [exact Hsep|exact IH].
Qed.

Lemma json_dumps_printable (j : json) : Forall printable_ascii (json_dumps j).
Proof.
  induction j as [|[|]| | |items IH|items IH] using json_ind'; cbn [json_dumps].
  - printable_literal.
  - printable_literal.
  - printable_literal.
  - apply str_of_int_printable.
  - apply encode_basestring_ascii_printable.
  - apply Forall_app. split; [printable_literal|].
    apply Forall_app. split; [|printable_literal].
    apply join_printable; [printable_literal|].
    induction IH as [|x rest Hx _ IHrest]; cbn [map]; constructor; assumption.
  - apply Forall_app. split; [printable_literal|].
    apply Forall_app. split; [|printable_literal].
    apply join_printable; [printable_literal|].
    induction IH as [|[k v] rest Hx _ IHrest]; cbn [map]; constructor; [|assumption].
    apply Forall_app. split; [apply encode_basestring_ascii_printable|].
    apply Forall_app. split; [printable_literal|exact Hx].
Qed.

(** A serialized payload holds no line break. *)
Lemma json_dumps_one_line (j : json) : ~ In 10%N (json_dumps j).
Proof.
  intros Hin.
  pose proof (json_dumps_printable j) as Hall.
  rewrite List.Forall_forall in Hall. specialize (Hall _ Hin).
  unfold printable_ascii in Hall. lia.
Qed.

(** ** What [emit_line] does to the standard output *)

Lemma emit_line_flushes (payload : jdict) (o : Stdout) :
  written (emit_line payload o) = written o ++ pending o ++ line_of payload /\
  pending (emit_line payload o) = [].
Proof. split; reflexivity. Qed.

Lemma emit_lines_from_flushed (ps : list jdict) : forall o,
  pending o = [] ->
  written (fold_left (fun o p => emit_line p o) ps o) =
    written o ++ concat (map line_of ps) /\
  pending (fold_left (fun o p => emit_line p o) ps o) = [].
Proof.
  induction ps as [|p ps IH]; intros o Ho; cbn [fold_left map concat].
  - rewrite app_nil_r. split; [reflexivity|exact Ho].
  - destruct (IH (emit_line p o) eq_refl) as [Hw Hp].
    rewrite Hw, Hp. split; [|reflexivity].
    destruct (emit_line_flushes p o) as [-> _].
    rewrite Ho. cbn [app]. rewrite <- app_assoc. reflexivity.
Qed.

Lemma emit_lines_nonempty (ps : list jdict) (o : Stdout) :
  ps <> [] ->
  written (fold_left (fun o p => emit_line p o) ps o) =
    written o ++ pending o ++ concat (map line_of ps) /\
  pending (fold_left (fun o p => emit_line p o) ps o) = [].
Proof.
  destruct ps as [|p ps]; [congruence|]. intros _. cbn [fold_left map concat].
  destruct (emit_lines_from_flushed ps (emit_line p o) eq_refl) as [Hw Hp].
  rewrite Hw, Hp. split; [|reflexivity].
  destruct (emit_line_flushes p o) as [-> _].
  rewrite <- !app_assoc. reflexivity.
Qed.

Section BridgeFacts.
Context {builtins : Builtins}.

(** ** [find_max_int] against its specification *)

Lemma nesting_pos (data : value) : (1 <= nesting data)%nat.
Proof. destruct data; simpl; lia. Qed.

Lemma needs_frame_some {A} (spare : nat) (r : result A) :
  (1 <= spare)%nat -> needs_frame spare r = r.
Proof. destruct spare; [lia|reflexivity]. Qed.

Lemma max_int_list_spec (keys : gset pystr) (spare : nat) (items : list value) :
  Forall (fun v => forall frames, (nesting v <= frames)%nat ->
                   find_max_int frames keys v = find_max_int_spec keys v) items ->
  (fold_right (fun v d => Nat.max (nesting v) d) 0%nat items <= spare)%nat ->
  forall best, 0 <= best ->
    max_int_list (find_max_int spare keys) items best =
    (let* ns := rmapM (fun v => to_int v 0) (flat_map (bound_values keys) items) in
     Ok (Z.max best (max_with_zero ns)))%result.
Proof.
  induction 1 as [|v items Hv _ IH]; intros Hdepth best Hbest;
    cbn [max_int_list flat_map fold_right] in *.
  - simpl. f_equal. lia.
  - rewrite Hv by lia. rewrite rmapM_app. unfold find_max_int_spec.
    destruct (rmapM _ (bound_values keys v)) as [ns1|e]; simpl; [|reflexivity].
    rewrite IH by lia.
    destruct (rmapM _ (flat_map _ items)) as [ns2|e]; simpl; [|reflexivity].
    rewrite max_with_zero_app. f_equal. lia.
Qed.

Lemma max_int_items_spec (keys : gset pystr) (spare : nat) (items : list (dkey * value)) :
  Forall (fun kv => forall frames, (nesting (snd kv) <= frames)%nat ->
                    find_max_int frames keys (snd kv) = find_max_int_spec keys (snd kv))
         items ->
  (fold_right (fun kv d => Nat.max (nesting (snd kv)) d) 0%nat items <= spare)%nat ->
  forall best, 0 <= best ->
    max_int_items (find_max_int spare keys) spare keys items best =
    (let* ns := rmapM (fun v => to_int v 0)
                  (flat_map
                     (fun kv => (if key_in (fst kv) keys then [snd kv] else []) ++
                                bound_values keys (snd kv)) items) in
     Ok (Z.max best (max_with_zero ns)))%result.
Proof.
  induction 1 as [|[k v] items Hv _ IH]; intros Hdepth best Hbest;
    cbn [max_int_items flat_map fold_right fst snd] in *.
  - simpl. f_equal. lia.
  - pose proof (nesting_pos v) as Hpos.
    rewrite Hv by lia. rewrite needs_frame_some by lia. unfold find_max_int_spec.
    rewrite rmapM_app.
    destruct (key_in k keys); simpl.
    + destruct (to_int v 0) as [n|e]; simpl; [|reflexivity].
      destruct (rmapM _ (bound_values keys v)) as [ns1|e]; simpl; [|reflexivity].
      rewrite IH by lia.
      destruct (rmapM _ (flat_map _ items)) as [ns2|e]; simpl; [|reflexivity].
      rewrite max_with_zero_app. f_equal. lia.
    + destruct (rmapM _ (bound_values keys v)) as [ns1|e]; simpl; [|reflexivity].
      rewrite IH by lia.
      destruct (rmapM _ (flat_map _ items)) as [ns2|e]; simpl; [|reflexivity].
      rewrite max_with_zero_app. f_equal. lia.
Qed.

(** Within the recursion limit the scan is the maximum the specification
    words: the result of folding [to_int] over the bound values. *)
Lemma find_max_int_meets_spec (keys : gset pystr) (data : value) : forall frames,
  (nesting data <= frames)%nat ->
  find_max_int frames keys data = find_max_int_spec keys data.
Proof.
  induction data as [| | | | |items IH|items IH|attrs _] using value_ind';
    intros [|spare] Hdepth; cbn [nesting] in Hdepth; try lia; try reflexivity.
  - cbn [find_max_int]. rewrite (max_int_list_spec keys spare items IH) by lia.
    unfold find_max_int_spec. simpl.
    destruct (rmapM _ _) as [ns|e]; simpl; [|reflexivity].
    f_equal. pose proof (max_with_zero_nonneg ns). lia.
  - cbn [find_max_int]. rewrite (max_int_items_spec keys spare items IH) by lia.
    unfold find_max_int_spec. simpl.
    destruct (rmapM _ _) as [ns|e]; simpl; [|reflexivity].
    f_equal. pose proof (max_with_zero_nonneg ns). lia.
Qed.

(** C1, as amended. For every set of key names [keys] and every nested
    structure of dictionaries and lists [data] whose nesting depth is within
    the frames the recursion limit leaves: when the call [to_int v 0]
    returns for every value [v] bound to a key of [keys] at any depth of
    [data], [find_max_int data keys] returns the maximum of 0 and these
    results, a number that is at least 0 and at least each of them, and
    that is 0 or one of them; and it returns 0 when no such key occurs
    anywhere. *)
Theorem find_max_int_is_max_over_bound_values
    (frames : nat) (keys : gset pystr) (data : value) :
  (nesting data <= frames)%nat ->
  (forall ns,
      rmapM (fun v => to_int v 0) (bound_values keys data) = Ok ns ->
      find_max_int frames keys data = Ok (max_with_zero ns) /\
      0 <= max_with_zero ns /\
      (forall n, In n ns -> n <= max_with_zero ns) /\
      (max_with_zero ns = 0 \/ In (max_with_zero ns) ns)) /\
  (bound_values keys data = [] -> find_max_int frames keys data = Ok 0).
Proof.
  intros Hdepth.
  rewrite (find_max_int_meets_spec keys data frames Hdepth). unfold find_max_int_spec.
  split.
  - intros ns Hns. rewrite Hns. split; [reflexivity|].
    split; [apply max_with_zero_nonneg|].
    split; [intros n; apply max_with_zero_upper|apply max_with_zero_attained].
  - intros Hnone. rewrite Hnone. reflexivity.
Qed.

(** ** The scans are not negative and end by themselves *)

Lemma max_int_list_lower (rec : value -> result Z) (items : list value) :
  forall best n, max_int_list rec items best = Ok n -> best <= n.
Proof.
  induction items as [|v items IH]; intros best n; cbn [max_int_list].
  - intros [= <-]. lia.
  - destruct (rec v) as [m|e]; cbn [rbind]; [|discriminate].
    intros H. apply IH in H. lia.
Qed.

Lemma max_int_items_lower (rec : value -> result Z) (spare : nat) (keys : gset pystr)
    (items : list (dkey * value)) :
  forall best n, max_int_items rec spare keys items best = Ok n -> best <= n.
Proof.
  induction items as [|[k v] items IH]; intros best n; cbn [max_int_items].
  - intros [= <-]. lia.
  - destruct (key_in k keys).
    + destruct (needs_frame spare (to_int v 0)) as [m|e]; cbn [rbind]; [|discriminate].
      destruct (rec v) as [m'|e]; cbn [rbind]; [|discriminate].
      intros H. apply IH in H. lia.
    + cbn [rbind]. destruct (rec v) as [m'|e]; cbn [rbind]; [|discriminate].
      intros H. apply IH in H. lia.
Qed.

Lemma find_max_int_nonneg (frames : nat) (keys : gset pystr) (data : value) (n : Z) :
  find_max_int frames keys data = Ok n -> 0 <= n.
Proof.
  destruct frames as [|spare]; cbn [find_max_int]; [discriminate|].
  destruct data; try (intros [= <-]; lia).
  - apply max_int_list_lower.
  - apply max_int_items_lower.
Qed.

Lemma to_int_own (v : value) (default : Z) : own_result (to_int v default).
Proof.
  unfold own_result. destruct v as [|b|z|f|s| | |]; simpl; try discriminate.
  - destruct f; simpl; discriminate.
  - destruct (float_of_str s) as [f|]; [|discriminate].
    destruct (int_of_float f); discriminate.
Qed.

Lemma needs_frame_own {A} (spare : nat) (r : result A) :
  own_result r -> own_result (needs_frame spare r).
Proof. destruct spare; [discriminate|trivial]. Qed.

Lemma find_max_int_own (frames : nat) (keys : gset pystr) : forall data,
  own_result (find_max_int frames keys data).
Proof.
  induction frames as [|spare IH]; intros data; cbn [find_max_int]; [discriminate|].
  destruct data as [| | | | |items|items|]; try discriminate.
  - generalize 0. induction items as [|v items IHitems]; intros best;
      cbn [max_int_list]; [discriminate|].
    pose proof (IH v) as Hv.
    destruct (find_max_int spare keys v) as [m|e]; cbn [rbind]; [apply IHitems|exact Hv].
  - generalize 0. induction items as [|[k v] items IHitems]; intros best;
      cbn [max_int_items]; [discriminate|].
    pose proof (IH v) as Hv.
    pose proof (needs_frame_own spare _ (to_int_own v 0)) as Hn.
    destruct (key_in k keys).
    + destruct (needs_frame spare (to_int v 0)) as [m|e]; cbn [rbind]; [|exact Hn].
      destruct (find_max_int spare keys v) as [m'|e]; cbn [rbind]; [apply IHitems|exact Hv].
    + cbn [rbind].
      destruct (find_max_int spare keys v) as [m'|e]; cbn [rbind]; [apply IHitems|exact Hv].
Qed.

Lemma find_first_string_own (frames : nat) (keys : gset pystr) : forall data,
  own_result (find_first_string frames keys data).
Proof.
  induction frames as [|spare IH]; intros data; cbn [find_first_string]; [discriminate|].
  destruct data as [| | | | |items|items|]; try discriminate.
  - induction items as [|v items IHitems]; cbn [first_string_list]; [discriminate|].
    pose proof (IH v) as Hv.
    destruct (find_first_string spare keys v) as [found|e]; cbn [rbind]; [|exact Hv].
    destruct (found_truthy found); [discriminate|exact IHitems].
  - induction items as [|[k v] items IHitems]; cbn [first_string_items]; [discriminate|].
    pose proof (IH v) as Hv.
    destruct (if key_in k keys then as_str v else None); [discriminate|].
    destruct (find_first_string spare keys v) as [found|e]; cbn [rbind]; [|exact Hv].
    destruct (found_truthy found); [discriminate|exact IHitems].
Qed.

Lemma parse_current_viewers_own (frames : nat) (info : value) :
  own_result (parse_current_viewers_from_room_info frames info).
Proof.
  destruct frames as [|spare]; cbn [parse_current_viewers_from_room_info]; [discriminate|].
  pose proof (find_max_int_own spare viewer_keys info) as H.
  destruct (find_max_int spare viewer_keys info); cbn [rbind]; [discriminate|exact H].
Qed.

Lemma parse_total_enters_own (frames : nat) (info : value) :
  own_result (parse_total_enters_from_room_info frames info).
Proof.
  destruct frames as [|spare]; cbn [parse_total_enters_from_room_info]; [discriminate|].
  pose proof (find_max_int_own spare enter_keys info) as H.
  destruct (find_max_int spare enter_keys info); cbn [rbind]; [discriminate|exact H].
Qed.

(** ** What ends by itself *)

Lemma ends_ret {A} (a : A) : ends_by_itself (se_ret a).
Proof. intros w. discriminate. Qed.

Lemma ends_lift {A} (r : result A) : own_result r -> ends_by_itself (se_lift r).
Proof. intros H w. exact H. Qed.

Lemma ends_get : ends_by_itself se_get.
Proof. intros w. discriminate. Qed.

Lemma ends_modify (f : LiveCaptureState -> LiveCaptureState) : ends_by_itself (se_modify f).
Proof. intros w. discriminate. Qed.

Lemma ends_emit (payload : jdict) : ends_by_itself (se_emit payload).
Proof. intros w. discriminate. Qed.

Lemma ends_bind {A B} (m : SE A) (k : A -> SE B) :
  ends_by_itself m -> (forall a, ends_by_itself (k a)) -> ends_by_itself (se_bind m k).
Proof.
  intros Hm Hk w. unfold se_bind. specialize (Hm w).
  destruct (m w) as [w' [a|e]]; cbn [snd] in *; [apply Hk|].
  intros H. apply Hm. injection H as ->. reflexivity.
Qed.

Lemma ends_when (b : bool) (m : SE unit) :
  ends_by_itself m -> ends_by_itself (se_when b m).
Proof. intros Hm. destruct b; simpl; [exact Hm|apply ends_ret]. Qed.

Lemma ends_try {A} (m : SE A) (h : exn -> SE A) :
  ends_by_itself m -> (forall e, ends_by_itself (h e)) -> ends_by_itself (se_try m h).
Proof.
  intros Hm Hh w. unfold se_try. specialize (Hm w).
  destruct (m w) as [w' [a|e]]; cbn [snd] in *; [discriminate|].
  destruct e; cbn [is_exception]; try apply Hh. exact Hm.
Qed.

Ltac ends_walk :=
  repeat (lazy zeta;
    match goal with
    | |- forall _, _ => intros ?
    | |- ends_by_itself (se_bind _ _) => apply ends_bind
    | |- ends_by_itself (se_ret _) => apply ends_ret
    | |- ends_by_itself se_get => apply ends_get
    | |- ends_by_itself (se_when _ _) => apply ends_when
    | |- ends_by_itself (se_modify _) => apply ends_modify
    | |- ends_by_itself (se_emit _) => apply ends_emit
    | |- ends_by_itself (se_lift (to_int _ _)) => apply ends_lift, to_int_own
    | |- ends_by_itself (se_lift (find_max_int _ _ _)) => apply ends_lift, find_max_int_own
    | |- ends_by_itself (se_lift (find_first_string _ _ _)) =>
        apply ends_lift, find_first_string_own
    | |- ends_by_itself (se_lift (parse_current_viewers_from_room_info _ _)) =>
        apply ends_lift, parse_current_viewers_own
    | |- ends_by_itself (se_lift (parse_total_enters_from_room_info _ _)) =>
        apply ends_lift, parse_total_enters_own
    | |- ends_by_itself (se_lift (Raise (ClientError _))) => apply ends_lift; discriminate
    | |- ends_by_itself (if ?b then _ else _) => destruct b eqn:?
    | |- ends_by_itself (match ?x with _ => _ end) => destruct x eqn:?
    end).

Lemma read_room_info_ends (c : ClientRun) : ends_by_itself (read_room_info c).
Proof. unfold read_room_info. ends_walk. Qed.

Lemma handle_events_ends (cfg : HandlerConfig) (evs : list event) :
  ends_by_itself (handle_events cfg evs).
Proof. intros w. discriminate. Qed.

Lemma bootstrap_client_ends (cfg : HandlerConfig) (precheck : bool) (c : ClientRun) :
  ends_by_itself (bootstrap_client cfg precheck c).
Proof.
  unfold bootstrap_client.
  destruct (precheck && negb (truthy (live_check c))).
  - ends_walk.
  - repeat (apply ends_bind; [|intros ?]);
      first [apply handle_events_ends | apply read_room_info_ends | ends_walk].
Qed.

(** ** The counters never go back *)

Lemma counters_stable : Stable counters_rel.
Proof. split; unfold counters_rel, counters_kept; intros; lia. Qed.
#[local] Existing Instance counters_stable.

Ltac counters_leaf :=
  unfold counters_rel, counters_kept; simpl;
  repeat match goal with
         | H : (_ <? _) = true |- _ => apply Z.ltb_lt in H
         end;
  lia.

Lemma handler_keeps_counters (cfg : HandlerConfig) (e : event) :
  respects counters_rel (handler cfg e).
Proof.
  destruct e; simpl;
    unfold on_connect, on_disconnect, on_room_user_seq, on_like, on_comment, on_gift;
    respects_walk counters_leaf.
Qed.

Lemma read_room_info_keeps_counters (cfg : HandlerConfig) (c : ClientRun) :
  respects counters_rel (read_room_info c).
Proof. unfold read_room_info. respects_walk counters_leaf. Qed.

Lemma emit_sample_keeps_counters (now : pystr) : respects counters_rel (emit_sample now).
Proof. intros w. unfold counters_rel, counters_kept. simpl. lia. Qed.

Lemma do_step_keeps_counters (cfg : HandlerConfig) (w : World) (s : step) :
  counters_rel w (do_step cfg w s).
Proof.
  destruct s as [e|c|now]; simpl.
  - apply handler_keeps_counters.
  - apply (read_room_info_keeps_counters cfg).
  - apply emit_sample_keeps_counters.
Qed.

Lemma quiet_room_user_seq (cfg : HandlerConfig) (ev : value) (w : World) (n : Z) :
  to_int (getattr ev "m_total" (VInt 0)) 0 = Ok n -> n <= 0 ->
  current_viewers (state (dispatch cfg w (RoomUserSeqEvent ev))) = current_viewers (state w).
Proof.
  intros Hn Hle. unfold dispatch. simpl. unfold on_room_user_seq, se_bind, se_lift.
  rewrite Hn.
  destruct (to_int (getattr ev "total_user" (VInt 0)) 0) as [en|e]; [|reflexivity].
  destruct (to_int (getattr ev "m_popularity" (VInt 0)) 0) as [lk|e]; [|reflexivity].
  assert (Hv : (0 <? n) = false) by (apply Z.ltb_ge; lia).
  rewrite Hv. simpl.
  destruct (0 <? en); destruct (0 <? lk); reflexivity.
Qed.

(** C7. Along every sequence of steps of the bridge (events handled, the
    room information read, samples taken) [current_likes] and
    [current_enters] never decrease and a positive [current_viewers] stays
    positive; a room-user-sequence event that reports no viewers (a count of
    0, or a negative one) leaves [current_viewers] as it is. *)
Theorem counters_never_go_back (cfg : HandlerConfig) :
  (forall steps w, counters_kept (state w) (state (run cfg steps w))) /\
  (forall ev w n,
      to_int (getattr ev "m_total" (VInt 0)) 0 = Ok n -> n <= 0 ->
      current_viewers (state (dispatch cfg w (RoomUserSeqEvent ev))) =
      current_viewers (state w)).
Proof.
  split.
  - intros steps w. unfold run.
    apply (respects_fold counters_rel (do_step cfg) (do_step_keeps_counters cfg)).
  - intros ev w n. apply quiet_room_user_seq.
Qed.

(** The bridge records no gift while its streak is running. *)
Lemma on_gift_skips_running_streak (cfg : HandlerConfig) (ev : value) (now : pystr) (w : World) :
  truthy (getattr (getattr ev "gift" VNone) "streakable" (VBool false)) = true ->
  truthy (py_or (getattr ev "streaking" (VBool false))
                (getattr (getattr ev "gift" VNone) "streaking" (VBool false))) = true ->
  on_gift cfg ev now w = (w, Ok tt).
Proof.
  intros Hable Hing. unfold on_gift, se_bind, se_get. cbv zeta.
  rewrite Hable, Hing.
  destruct (negb (collect_chat cfg) || _ || _); reflexivity.
Qed.

(** ** Counts are never negative *)

Lemma snapshot_counts_nonneg (s : LiveCaptureState) (now : pystr) :
  counts_nonneg (snapshot s now).
Proof.
  repeat split.
  - exists (Z.max 0 (current_viewers s)). split; [reflexivity|lia].
  - exists (Z.max 0 (current_likes s)). split; [reflexivity|lia].
  - exists (Z.max 0 (current_enters s)). split; [reflexivity|lia].
Qed.

Lemma add_sample_counts_nonneg (s : LiveCaptureState) (now : pystr) :
  counts_nonneg (snd (add_sample s now)).
Proof.
  repeat split.
  - exists (Z.max 0 (current_viewers s)). split; [reflexivity|lia].
  - exists (Z.max 0 (current_likes s)). split; [reflexivity|lia].
  - exists (Z.max 0 (current_enters s)). split; [reflexivity|lia].
Qed.

Lemma samples_stable : Stable samples_rel.
Proof.
  split.
  - intros w. exists []. rewrite app_nil_r. split; [reflexivity|constructor].
  - intros a b c (n1 & H1 & F1) (n2 & H2 & F2). exists (n1 ++ n2).
    rewrite H2, H1, app_assoc. split; [reflexivity|].
    apply Forall_app; split; assumption.
Qed.
#[local] Existing Instance samples_stable.

Ltac samples_leaf :=
  exists []; simpl; rewrite app_nil_r; split; [reflexivity|constructor].

Lemma handler_keeps_samples (cfg : HandlerConfig) (e : event) :
  respects samples_rel (handler cfg e).
Proof.
  destruct e; simpl;
    unfold on_connect, on_disconnect, on_room_user_seq, on_like, on_comment, on_gift;
    respects_walk samples_leaf.
Qed.

Lemma read_room_info_keeps_samples (c : ClientRun) :
  respects samples_rel (read_room_info c).
Proof. unfold read_room_info. respects_walk samples_leaf. Qed.

Lemma emit_sample_adds_good_sample (now : pystr) : respects samples_rel (emit_sample now).
Proof.
  intros w. exists [snd (add_sample (state w) now)]. split; [reflexivity|].
  constructor; [apply add_sample_counts_nonneg|constructor].
Qed.

Lemma do_step_keeps_samples (cfg : HandlerConfig) (w : World) (s : step) :
  samples_rel w (do_step cfg w s).
Proof.
  destruct s as [e|c|now]; simpl.
  - apply handler_keeps_samples.
  - apply read_room_info_keeps_samples.
  - apply emit_sample_adds_good_sample.
Qed.

(** C8. Whatever the capture state, the snapshot and the sample taken from
    it have [viewerCount], [likeCount] and [enterCount] at least 0; and
    after every run of the bridge from a fresh state, whatever values the
    events carried, every sample recorded has them at least 0. *)
Theorem counts_never_negative :
  (forall s now, counts_nonneg (snapshot s now)) /\
  (forall s now, counts_nonneg (snd (add_sample s now))) /\
  (forall cfg steps name,
      Forall counts_nonneg (samples (state (run cfg steps (new_world name))))).
Proof.
  split; [apply snapshot_counts_nonneg|].
  split; [apply add_sample_counts_nonneg|].
  intros cfg steps name.
  destruct (respects_fold samples_rel (do_step cfg) (do_step_keeps_samples cfg)
              steps (new_world name)) as (new & Hnew & Hall).
  unfold run. rewrite Hnew. simpl. exact Hall.
Qed.

(** ** The records of the stream *)

Lemma str_list_of_warnings (warns : list pystr) :
  is_str_list (JList (map JStr warns)) = true.
Proof. induction warns as [|x warns IH]; [reflexivity|exact IH]. Qed.

Lemma end_record_shape (ok live : bool) (warns : list pystr) (error : option pystr) :
  record_shape (end_record ok live warns error) = true.
Proof.
  unfold record_shape.
  replace (is_end_record (end_record ok live warns error)) with true by reflexivity.
  assert (E : end_record ok live warns error =
              [ (lit "type", JStr (lit "end")); (lit "ok", JBool ok);
                (lit "isLive", JBool live); (lit "warnings", JList (map JStr warns));
                (lit "error", json_of_opt_str error) ]) by reflexivity.
  rewrite E. unfold flat_but_warnings. cbn [forallb fst snd].
  rewrite str_list_of_warnings.
  destruct error; reflexivity.
Qed.

Lemma output_stable : Stable output_rel.
Proof.
  split.
  - intros w. exists []. rewrite app_nil_r. repeat split. constructor.
  - intros a b c (p1 & E1 & O1 & F1) (p2 & E2 & O2 & F2). exists (p1 ++ p2).
    rewrite E2, E1, O2, O1, app_assoc, fold_left_app.
    repeat split. apply Forall_app; split; assumption.
Qed.
#[local] Existing Instance output_stable.

Ltac shape_leaf :=
  idtac;
  lazymatch goal with
  | |- record_shape (end_record _ _ _ _) = true => apply end_record_shape
  | |- _ =>
      unfold snapshot;
      repeat match goal with
             | |- context [json_of_opt_str ?o] => destruct o; cbn [json_of_opt_str]
             end;
      reflexivity
  end.

Ltac output_leaf :=
  idtac;
  lazymatch goal with
  | |- output_rel _ {| state := _; stdout := emit_line _ _; emitted := _ |} =>
      eexists [_]; cbn [emitted stdout state fold_left];
      split; [reflexivity|split; [reflexivity|]];
      constructor; [shape_leaf|constructor]
  | |- output_rel _ _ =>
      exists []; cbn [emitted stdout state fold_left]; rewrite app_nil_r;
      repeat split; constructor
  end.

Lemma handler_output (cfg : HandlerConfig) (e : event) :
  respects output_rel (handler cfg e).
Proof.
  destruct e; cbn [handler];
    unfold on_connect, on_disconnect, on_room_user_seq, on_like, on_comment, on_gift;
    respects_walk output_leaf.
Qed.

Lemma handle_events_output (cfg : HandlerConfig) (evs : list event) :
  respects output_rel (handle_events cfg evs).
Proof.
  intros w. unfold handle_events. cbn [fst].
  apply (respects_fold output_rel). intros w' e. apply handler_output.
Qed.

Lemma read_room_info_output (c : ClientRun) : respects output_rel (read_room_info c).
Proof. unfold read_room_info. respects_walk output_leaf. Qed.

Lemma emit_sample_output (now : pystr) : respects output_rel (emit_sample now).
Proof.
  intros w. eexists [_]. split; [reflexivity|split; [reflexivity|]].
  constructor; [reflexivity|constructor].
Qed.

Ltac stream_leaf :=
  idtac;
  lazymatch goal with
  | |- respects _ (handle_events _ _) => apply handle_events_output
  | |- respects _ (read_room_info _) => apply read_room_info_output
  | |- respects _ (emit_sample _) => apply emit_sample_output
  | |- _ => output_leaf
  end.

Lemma bootstrap_client_output (cfg : HandlerConfig) (precheck : bool) (c : ClientRun) :
  respects output_rel (bootstrap_client cfg precheck c).
Proof. unfold bootstrap_client. respects_walk stream_leaf. Qed.

Lemma emit_meta_output (now : pystr) : respects output_rel (emit_meta now).
Proof. unfold emit_meta. respects_walk output_leaf. Qed.

Lemma emit_end_output (ok : bool) (live : option bool) (error : option pystr) :
  respects output_rel (emit_end ok live error).
Proof. unfold emit_end. respects_walk output_leaf. Qed.

Lemma safe_disconnect_output (inp : StreamInputs) : respects output_rel (safe_disconnect inp).
Proof. unfold safe_disconnect. respects_walk output_leaf. Qed.

Lemma apply_optional_session_output (inp : StreamInputs) :
  respects output_rel (apply_optional_session inp).
Proof. unfold apply_optional_session. respects_walk output_leaf. Qed.

Lemma sampling_loop_output (cfg : HandlerConfig) (duration : Z) (items : list loop_item) :
  respects output_rel (sampling_loop cfg duration items).
Proof.
  induction items as [|it items IH]; cbn [sampling_loop].
  - destruct (0 <? duration); [apply respects_ret|apply respects_lift]; typeclasses eauto.
  - apply respects_bind; [typeclasses eauto| |intros _; exact IH].
    destruct it; cbn [loop_turn]; stream_leaf.
Qed.

Ltac body_leaf :=
  idtac;
  lazymatch goal with
  | |- respects _ (bootstrap_client _ _ _) => apply bootstrap_client_output
  | |- respects _ (emit_meta _) => apply emit_meta_output
  | |- respects _ (emit_end _ _ _) => apply emit_end_output
  | |- respects _ (safe_disconnect _) => apply safe_disconnect_output
  | |- respects _ (sampling_loop _ _ _) => apply sampling_loop_output
  | |- _ => stream_leaf
  end.

Lemma stream_body_output (args : Args) (inp : StreamInputs) :
  respects output_rel (stream_body args inp).
Proof. unfold stream_body. respects_walk body_leaf. Qed.

Lemma stream_except_output (inp : StreamInputs) (e : exn) :
  respects output_rel (stream_except inp e).
Proof. unfold stream_except. respects_walk body_leaf. Qed.

(** A stream never ends silently: the ["meta"] record is out before the
    body returns, and the handler of the exceptions prints an ["end"]
    record. *)
Lemma grown_nonempty (w w' : World) :
  emitted w <> [] -> output_rel w w' -> emitted w' <> [].
Proof.
  intros Hne (ps & E & _). rewrite E. intros H.
  apply app_eq_nil in H. tauto.
Qed.

Lemma stream_body_emits (args : Args) (inp : StreamInputs) (w w' : World) (res : result Z) :
  stream_body args inp w = (w', res) ->
  (forall e, res = Raise e -> is_exception e = false) ->
  emitted w' <> [].
Proof.
  unfold stream_body. cbv zeta. unfold se_bind at 1.
  pose proof (bootstrap_client_ends (stream_config args) false (client inp) w) as Hends.
  destruct (bootstrap_client _ false (client inp) w) as [w1 [live|e]];
    [clear Hends; intros Hrun _; revert Hrun
    |intros [= _ <-] Hexn; exfalso; specialize (Hexn e eq_refl);
     destruct e; try discriminate Hexn; apply Hends; reflexivity].
  assert (Hmeta : emitted (fst (emit_meta (now_meta inp) w1)) <> []).
  { cbn [emit_meta se_bind se_get se_emit fst emitted]. intros H.
    apply app_eq_nil in H. destruct H; discriminate. }
  assert (Hok : snd (emit_meta (now_meta inp) w1) = Ok tt) by reflexivity.
  destruct (negb live); unfold se_bind at 1;
    destruct (emit_meta (now_meta inp) w1) as [w2 r]; cbn [fst snd] in *; subst r;
    intros Hrun;
    match type of Hrun with
    | ?k w2 = _ =>
        assert (Hrest : output_rel w2 (fst (k w2)))
          by (revert w2 Hmeta Hrun; intros w2 _ _; revert w2;
              change (respects output_rel k); respects_walk body_leaf)
    end;
    rewrite Hrun in Hrest; cbn [fst] in Hrest;
    exact (grown_nonempty _ _ Hmeta Hrest).
Qed.

Lemma stream_except_emits (inp : StreamInputs) (e : exn) (w : World) :
  emitted (fst (stream_except inp e w)) <> [].
Proof.
  unfold stream_except, safe_disconnect, emit_end.
  destruct (disconnect_error inp);
    cbn [se_bind se_modify se_get se_emit se_ret fst emitted];
    intros H; apply app_eq_nil in H; destruct H; discriminate.
Qed.

Lemma capture_live_stream_emits (args : Args) (inp : StreamInputs) (o : Stdout) :
  emitted (fst (capture_live_stream args inp o)) <> [].
Proof.
  unfold capture_live_stream. cbv zeta. unfold se_bind.
  destruct (apply_optional_session inp _) as [w1 [[]|e]] eqn:Hsess.
  - unfold se_try.
    destruct (stream_body args inp w1) as [w2 [z|e]] eqn:Hbody.
    + cbn [fst]. eapply stream_body_emits; [exact Hbody|discriminate].
    + destruct (is_exception e) eqn:He; [apply stream_except_emits|].
      cbn [fst]. eapply stream_body_emits; [exact Hbody|].
      intros e' [= <-]. exact He.
  - exfalso. revert Hsess. unfold apply_optional_session.
    destruct (str_truthy _); [destruct (set_session_error inp)|]; discriminate.
Qed.

Lemma capture_live_stream_output (args : Args) (inp : StreamInputs) (o : Stdout) :
  output_rel
    {| state := new_state (lstrip_at (strip (arg_username args)));
       stdout := o; emitted := [] |}
    (fst (capture_live_stream args inp o)).
Proof.
  unfold capture_live_stream. cbv zeta.
  match goal with
  | |- output_rel ?w (fst (?m ?w)) => revert o; intros o; generalize w; change (respects output_rel m)
  end.
  apply respects_bind; [typeclasses eauto|apply apply_optional_session_output|intros _].
  apply respects_try; [typeclasses eauto|apply stream_body_output|apply stream_except_output].
Qed.

(** C4, as amended. Every record a stream emits is printed as exactly one
    line: the JSON serialization of one object, made of printable ASCII only
    (so without a line break inside), then a line break, and nothing is left
    in the buffer. The fields of a record are scalars, except that an ["end"]
    record carries its warnings as a list of strings. *)
Theorem stream_prints_one_ascii_line_per_record
    (args : Args) (inp : StreamInputs) (o : Stdout) :
  let w := fst (capture_live_stream args inp o) in
  written (stdout w) = written o ++ pending o ++ concat (map line_of (emitted w)) /\
  pending (stdout w) = [] /\
  Forall (fun p => record_shape p = true /\
                   (exists body, json_dumps (JDict p) = lit "{" ++ body ++ lit "}") /\
                   Forall printable_ascii (json_dumps (JDict p)) /\
                   ~ In 10%N (json_dumps (JDict p)))
         (emitted w).
Proof.
  cbv zeta.
  pose proof (capture_live_stream_emits args inp o) as Hne.
  destruct (capture_live_stream_output args inp o) as (ps & E & O & F).
  cbn [emitted stdout app] in E, O. rewrite E in Hne |- *. rewrite O.
  destruct (emit_lines_nonempty ps o Hne) as [Hw Hp].
  split; [exact Hw|]. split; [exact Hp|].
  eapply Forall_impl; [exact F|]. intros p Hshape. cbv beta in Hshape.
  split; [exact Hshape|].
  split; [eexists; reflexivity|].
  split; [apply json_dumps_printable|apply json_dumps_one_line].
Qed.

(** ** [to_int] *)

Lemma to_int_bool (b : bool) (default : Z) :
  to_int (VBool b) default = Ok (if b then 1 else 0).
Proof. reflexivity. Qed.

Lemma to_int_int (z default : Z) : to_int (VInt z) default = Ok z.
Proof. reflexivity. Qed.

Lemma to_int_float (f : spec_float) (default : Z) :
  to_int (VFloat f) default = int_of_float f.
Proof. reflexivity. Qed.

Lemma to_int_str (s : pystr) (default : Z) :
  to_int (VStr s) default =
  Ok (match float_of_str s with
      | Some f => match int_of_float f with Ok z => z | Raise _ => default end
      | None => default
      end).
Proof.
  simpl. destruct (float_of_str s) as [f|]; [|reflexivity].
  destruct (int_of_float f); reflexivity.
Qed.

Lemma to_int_returns (v : value) (default : Z) :
  safe_for_to_int v = true -> exists z, to_int v default = Ok z.
Proof.
  destruct v as [|b|z|f|s| | |]; simpl; intros Hsafe; eauto.
  - destruct f; simpl in *; try discriminate; eauto.
  - destruct (float_of_str s) as [f|]; eauto.
    destruct (int_of_float f); eauto.
Qed.

(** C9, at the inputs where it fails. [to_int] does not return for the
    float infinities and NaN: the [float] branch calls [int(value)] outside
    any [try], and the call raises. *)
Theorem to_int_raises_on_nonfinite_float (sign : bool) (default : Z) :
  to_int (VFloat (S754_infinity sign)) default = Raise OverflowError /\
  to_int (VFloat S754_nan) default = Raise ValueError.
Proof. split; reflexivity. Qed.

(** ** Within the recursion limit the scans return, floats at infinity apart *)

Lemma rmapM_returns {A B} (f : A -> result B) (l : list A) :
  Forall (fun a => exists b, f a = Ok b) l -> exists bs, rmapM f l = Ok bs.
Proof.
  induction 1 as [|a l [b Hb] _ [bs Hbs]]; simpl; [eauto|].
  rewrite Hb, Hbs. simpl. eauto.
Qed.

(** X3. Within the recursion limit [find_max_int] returns, and returns a
    number that is not negative, on every structure in which no value bound
    to a key of [keys] is a float infinity or NaN. *)
Lemma find_max_int_returns (frames : nat) (keys : gset pystr) (data : value) :
  (nesting data <= frames)%nat ->
  Forall (fun v => safe_for_to_int v = true) (bound_values keys data) ->
  exists n, find_max_int frames keys data = Ok n /\ 0 <= n.
Proof.
  intros Hdepth Hsafe.
  rewrite (find_max_int_meets_spec keys data frames Hdepth). unfold find_max_int_spec.
  destruct (rmapM_returns (fun v => to_int v 0) (bound_values keys data)) as [ns Hns].
  - eapply Forall_impl; [exact Hsafe|]. intros v Hv. apply to_int_returns. exact Hv.
  - rewrite Hns. simpl. eexists. split; [reflexivity|apply max_with_zero_nonneg].
Qed.

(** What [find_first_string] finds is a stripped, non-empty string, so the
    test [if found] never drops a find. *)
Lemma as_str_truthy (v : value) (s : pystr) : as_str v = Some s -> str_truthy s = true.
Proof.
  destruct v; simpl; try discriminate.
  destruct (str_truthy (strip _)) eqn:Ht; [|discriminate].
  intros [= <-]. exact Ht.
Qed.

Lemma find_first_string_truthy (frames : nat) (keys : gset pystr) : forall data s,
  find_first_string frames keys data = Ok (Some s) -> str_truthy s = true.
Proof.
  induction frames as [|spare IH]; intros data s; cbn [find_first_string]; [discriminate|].
  destruct data as [| | | | |items|items|]; try discriminate.
  - induction items as [|v items IHitems]; cbn [first_string_list]; [discriminate|].
    destruct (find_first_string spare keys v) as [[s'|]|e] eqn:Hv; cbn [rbind found_truthy];
      [|exact IHitems|discriminate].
    rewrite (IH v s' Hv). intros [= <-]. exact (IH v s' Hv).
  - induction items as [|[k v] items IHitems]; cbn [first_string_items]; [discriminate|].
    destruct (if key_in k keys then as_str v else None) as [s'|] eqn:Hk.
    + intros [= <-]. destruct (key_in k keys); [|discriminate].
      eapply as_str_truthy. exact Hk.
    + destruct (find_first_string spare keys v) as [[s'|]|e] eqn:Hv;
        cbn [rbind found_truthy]; [|exact IHitems|discriminate].
      rewrite (IH v s' Hv). intros [= <-]. exact (IH v s' Hv).
Qed.

(** A structure nested as deep as the frames that are left is one level
    too deep for either scan. *)
Lemma scans_raise_on_deep_lists (frames : nat) (keys : gset pystr) :
  find_max_int frames keys (Nat.iter frames (fun v => VList [v]) (VInt 1)) =
    Raise (RecursionError recursion_text) /\
  find_first_string frames keys (Nat.iter frames (fun v => VList [v]) (VInt 1)) =
    Raise (RecursionError recursion_text).
Proof.
  induction frames as [|spare [IHmax IHfirst]]; [split; reflexivity|].
  rewrite Nat.iter_succ.
  cbn [find_max_int find_first_string max_int_list first_string_list].
  rewrite IHmax, IHfirst. split; reflexivity.
Qed.

(** C3, at the inputs where it fails. [find_max_int] raises on a room whose
    viewer counter is the float infinity, and so does the reader of the
    viewer count built on it, whatever frames the recursion limit leaves
    them beyond the two, and three, they take here. And both scans raise on
    a finite structure that is nested deeper than the frames that are left:
    a single value inside as many lists. *)
Theorem find_max_int_raises_on_infinite_counter (frames : nat) :
  find_max_int (S (S frames)) viewer_keys room_with_infinite_counter = Raise OverflowError /\
  parse_current_viewers_from_room_info (S (S (S frames))) room_with_infinite_counter =
    Raise OverflowError /\
  (forall keys,
      find_max_int frames keys (Nat.iter frames (fun v => VList [v]) (VInt 1)) =
        Raise (RecursionError recursion_text) /\
      find_first_string frames keys (Nat.iter frames (fun v => VList [v]) (VInt 1)) =
        Raise (RecursionError recursion_text)).
Proof.
  split; [reflexivity|]. split; [reflexivity|].
  intros keys. apply scans_raise_on_deep_lists.
Qed.

End BridgeFacts.

(** ** The records of a quiet stream *)

(** C4, as stated, fails: the ["end"] record that closes even a stream in
    which nothing happens is not flat, its ["warnings"] field is a list. *)
Lemma end_record_of_quiet_stream_is_not_flat :
  ~ Forall (fun p => flat_record p = true)
      (emitted (fst (@capture_live_stream integer_literals quiet_args quiet_inputs
                       stdout_empty))).
Proof.
  intros Hflat.
  assert (Hall : forallb flat_record
                   (emitted (fst (@capture_live_stream integer_literals quiet_args
                                    quiet_inputs stdout_empty))) = true).
  { apply forallb_forall. intros p Hp.
    exact (proj1 (List.Forall_forall _ _) Hflat p Hp). }
  vm_compute in Hall. discriminate Hall.
Qed.

(** ** A scan of a small room *)

Lemma find_max_int_is_max_over_bound_values_witness :
  (nesting nested_room <= 4)%nat /\
  rmapM (fun v => to_int (builtins := integer_literals) v 0)
    (bound_values viewer_keys nested_room) = Ok [12; 40; 0] /\
  find_max_int (builtins := integer_literals) 4 viewer_keys nested_room = Ok 40 /\
  bound_values viewer_keys (VList [VInt 3]) = [] /\
  find_max_int (builtins := integer_literals) 2 viewer_keys (VList [VInt 3]) = Ok 0.
Proof.
  assert (Hdepth : (nesting nested_room <= 4)%nat) by (vm_compute; lia).
  assert (Hdepth' : (nesting (VList [VInt 3]) <= 2)%nat) by (vm_compute; lia).
  split; [exact Hdepth|]. split; [reflexivity|]. split; [|split; [reflexivity|]].
  - exact (proj1 (proj1 (find_max_int_is_max_over_bound_values
                           (builtins := integer_literals) 4 viewer_keys nested_room Hdepth)
                    [12; 40; 0] eq_refl)).
  - exact (proj2 (find_max_int_is_max_over_bound_values
                    (builtins := integer_literals) 2 viewer_keys (VList [VInt 3]) Hdepth')
             eq_refl).
Defined.

(** ** A scan of a deep room *)

(** C1, as stated, fails: [find_max_int] does not return on every
    structure. On a room nested deeper than the frames the recursion limit
    leaves it raises, where the claim has it return 0, the maximum over no
    bound value; and it raises on the room whose viewer counter is the float
    infinity. *)
Lemma find_max_int_raises_on_deep_room :
  bound_values viewer_keys deep_room = [] /\
  find_max_int_spec (builtins := integer_literals) viewer_keys deep_room = Ok 0 /\
  find_max_int (builtins := integer_literals) (@frames_left integer_literals)
    viewer_keys deep_room =
    Raise (RecursionError (lit "maximum recursion depth exceeded")) /\
  find_max_int (builtins := integer_literals) (@frames_left integer_literals)
    viewer_keys room_with_infinite_counter = Raise OverflowError.
Proof. split; [|split; [|split]]; vm_compute; reflexivity. Qed.

(** ** A quiet room-user-sequence event *)

Lemma counters_never_go_back_witness :
  to_int (builtins := integer_literals) (getattr empty_room_event "m_total" (VInt 0)) 0 = Ok 0 /\
  0 <= 0 /\
  current_viewers
    (state (dispatch (builtins := integer_literals) chat_config seven_viewers
              (RoomUserSeqEvent empty_room_event))) = 7.
Proof.
  split; [reflexivity|]. split; [lia|].
  exact (proj2 (counters_never_go_back (builtins := integer_literals) chat_config)
           empty_room_event seven_viewers 0 eq_refl (Z.le_refl 0)).
Defined.

(** * The donation-goal display *)

Module PianothonFacts.
Import Pianothon.

Lemma on_gift_total (ev : GiftEvent) (m : Main) :
  totalcoins (fst (on_gift ev m)) = totalcoins (fst m) + gift_coins ev.
Proof.
  unfold on_gift, gift_coins, thank, giftreceived, print.
  destruct (streakable ev), (streaking ev); cbn [andb negb fst snd totalcoins];
    try (destruct (thankvalue <=? _); cbn [fst totalcoins]); lia.
Qed.

(** X13. The coin total after a sequence of gifts is the total before plus
    what each gift adds, summed: the handler keeps no other account and
    loses no gift. *)
Lemma total_after_gifts (evs : list GiftEvent) : forall m,
  totalcoins (fst (fold_left (fun m ev => on_gift ev m) evs m)) =
  totalcoins (fst m) + fold_right Z.add 0 (map gift_coins evs).
Proof.
  induction evs as [|ev evs IH]; intros m; cbn [fold_left map fold_right]; [lia|].
  rewrite IH, on_gift_total. lia.
Qed.

(** C2. A gift event adds to the coin total its diamond count times its
    repeat count when the gift is streakable and the streak has ended, its
    diamond count when the gift is not streakable, and nothing while the
    streak is still running. *)
Theorem gift_adds_coins (ev : GiftEvent) (m : Main) :
  (streakable ev = true -> streaking ev = false ->
   totalcoins (fst (on_gift ev m)) = totalcoins (fst m) + diamond_count ev * count ev) /\
  (streakable ev = false ->
   totalcoins (fst (on_gift ev m)) = totalcoins (fst m) + diamond_count ev) /\
  (streakable ev = true -> streaking ev = true ->
   totalcoins (fst (on_gift ev m)) = totalcoins (fst m)).
Proof.
  rewrite on_gift_total. unfold gift_coins.
  repeat split; intros; repeat match goal with H : _ = _ |- _ => rewrite H end; lia.
Qed.

Lemma gift_adds_coins_witness :
  totalcoins (fst (on_gift finished_streak main_init)) = 15 /\
  totalcoins (fst (on_gift single_gift main_init)) = 99 /\
  totalcoins (fst (on_gift running_streak main_init)) = 0.
Proof.
  split; [|split].
  - exact (proj1 (gift_adds_coins finished_streak main_init) eq_refl eq_refl).
  - exact (proj1 (proj2 (gift_adds_coins single_gift main_init)) eq_refl).
  - exact (proj2 (proj2 (gift_adds_coins running_streak main_init)) eq_refl eq_refl).
Defined.




End PianothonFacts.

(** * More of the bridge *)

(** ** Stripping *)

Lemma lstrip_starts_clean (s : pystr) : starts_clean (lstrip s).
Proof.
  induction s as [|c s IH]; simpl; [exact I|].
  destruct (py_isspace c) eqn:Hc; [exact IH|exact Hc].
Qed.

Lemma lstrip_clean_id (s : pystr) : starts_clean s -> lstrip s = s.
Proof. destruct s as [|c s]; simpl; [reflexivity|]. intros ->. reflexivity. Qed.

Lemma lstrip_is_suffix (s : pystr) : exists p, s = p ++ lstrip s.
Proof.
  induction s as [|c s [p Hp]]; simpl; [exists []; reflexivity|].
  destruct (py_isspace c).
  - exists (c :: p). simpl. f_equal. exact Hp.
  - exists []. reflexivity.
Qed.

Lemma strip_trimmed (s : pystr) : trimmed (strip s).
Proof.
  unfold strip.
  pose proof (lstrip_starts_clean s) as Ha.
  pose proof (lstrip_starts_clean (rev (lstrip s))) as Hb.
  destruct (lstrip_is_suffix (rev (lstrip s))) as [p Hp].
  destruct (lstrip (rev (lstrip s))) as [|x b']; [exact I|].
  cbn [starts_clean] in Hb.
  assert (Ea : lstrip s = (rev b' ++ [x]) ++ rev p).
  { rewrite <- (rev_involutive (lstrip s)), Hp, rev_app_distr. reflexivity. }
  cbn [rev].
  destruct (rev b' ++ [x]) as [|c r] eqn:Er.
  { apply app_eq_nil in Er. destruct Er as [_ Er]. discriminate Er. }
  rewrite Ea in Ha. cbn [app starts_clean] in Ha.
  unfold trimmed. split; [exact Ha|].
  rewrite <- Er, List.last_last. exact Hb.
Qed.

Lemma strip_of_trimmed (s : pystr) : trimmed s -> strip s = s.
Proof.
  destruct s as [|c s]; [reflexivity|]. intros [Hc Hl]. unfold strip.
  rewrite (lstrip_clean_id (c :: s)) by exact Hc.
  rewrite lstrip_clean_id; [apply rev_involutive|].
  destruct (rev (c :: s)) as [|x xs] eqn:Er; [exact I|].
  assert (E : c :: s = rev xs ++ [x]).
  { rewrite <- (rev_involutive (c :: s)), Er. reflexivity. }
  rewrite E in Hl. rewrite List.last_last in Hl. exact Hl.
Qed.

Section MoreBridgeFacts.
Context {builtins : Builtins}.

(** X1. What [as_str] returns is the stripped text of a string value: it is
    never empty, has white space neither at its start nor at its end, and
    [as_str] gives it back unchanged. *)
Theorem as_str_is_clean (v : value) (s : pystr) :
  as_str v = Some s ->
  (exists raw, v = VStr raw /\ s = strip raw) /\
  s <> [] /\ trimmed s /\ as_str (VStr s) = Some s.
Proof.
  destruct v as [| | | |raw| | |]; simpl; try discriminate.
  destruct (str_truthy (strip raw)) eqn:Ht; [|discriminate].
  intros [= <-].
  split; [exists raw; split; reflexivity|].
  split; [intros E; rewrite E in Ht; discriminate Ht|].
  split; [apply strip_trimmed|].
  rewrite (strip_of_trimmed (strip raw)) by apply strip_trimmed.
  rewrite Ht. reflexivity.
Qed.

(** ** [find_first_string] against the values bound to the keys *)







(** X4. [find_max_int] never returns a negative number, so the [max(0, .)]
    that the two readers of the room information put around it changes
    nothing: each of them is the scan for its own keys, run in the frames
    the reader leaves. *)
Theorem room_info_readers_are_the_scans (frames : nat) (info : value) :
  parse_current_viewers_from_room_info (S frames) info =
    find_max_int frames viewer_keys info /\
  parse_total_enters_from_room_info (S frames) info =
    find_max_int frames enter_keys info /\
  (forall keys n, find_max_int frames keys info = Ok n -> 0 <= n).
Proof.
  assert (Hnn : forall keys n, find_max_int frames keys info = Ok n -> 0 <= n)
    by (intros keys n; apply find_max_int_nonneg).
  cbn [parse_current_viewers_from_room_info parse_total_enters_from_room_info].
  split; [|split; [|exact Hnn]].
  - destruct (find_max_int frames viewer_keys info) as [n|e] eqn:E; simpl; [|reflexivity].
    f_equal. specialize (Hnn _ _ E). lia.
  - destruct (find_max_int frames enter_keys info) as [n|e] eqn:E; simpl; [|reflexivity].
    f_equal. specialize (Hnn _ _ E). lia.
Qed.

(** ** The caps on the chat records *)

Lemma caps_stable (cfg : HandlerConfig) : Stable (caps_rel cfg).
Proof. split; unfold caps_rel; intros; auto. Qed.
#[local] Existing Instance caps_stable.

Ltac caps_leaf := unfold caps_rel, chat_within; simpl; tauto.

Lemma after_optional_emit (b : bool) (payload : jdict) (w : World) :
  state (fst (se_when b (se_emit payload) w)) = state w.
Proof. destruct b; reflexivity. Qed.

Lemma on_comment_caps (cfg : HandlerConfig) (ev : value) (now : pystr) :
  respects (caps_rel cfg) (on_comment cfg ev now).
Proof.
  intros w. unfold on_comment, se_bind at 1, se_get.
  destruct (negb (collect_chat cfg) || (max_comments cfg =? 0) ||
            (max_comments cfg <=? Z.of_nat (length (comments (state w))))) eqn:G.
  - intros H. exact H.
  - cbv zeta. run_modify.
    unfold caps_rel. rewrite after_optional_emit.
    unfold chat_within. cbn [state set_comments comments gifts].
    rewrite length_app. cbn [length].
    apply orb_false_iff in G as [G Glen]. apply orb_false_iff in G as [Gc _].
    apply negb_false_iff in Gc. apply Z.leb_gt in Glen.
    intros (Hc & Hg & Hoff). split; [lia|]. split; [exact Hg|].
    intros Hno. congruence.
Qed.

Lemma on_gift_caps (cfg : HandlerConfig) (ev : value) (now : pystr) :
  respects (caps_rel cfg) (on_gift cfg ev now).
Proof.
  intros w. unfold on_gift, se_bind at 1, se_get.
  destruct (negb (collect_chat cfg) || (max_gifts cfg =? 0) ||
            (max_gifts cfg <=? Z.of_nat (length (gifts (state w))))) eqn:G.
  - intros H. exact H.
  - cbv zeta.
    destruct (truthy _ && truthy _); [intros H; exact H|].
    do 5 run_lift. run_modify.
    unfold caps_rel. rewrite after_optional_emit.
    unfold chat_within. cbn [state set_gifts comments gifts].
    rewrite length_app. cbn [length].
    apply orb_false_iff in G as [G Glen]. apply orb_false_iff in G as [Gc _].
    apply negb_false_iff in Gc. apply Z.leb_gt in Glen.
    intros (Hc & Hg & Hoff). split; [exact Hc|]. split; [lia|].
    intros Hno. congruence.
Qed.

Lemma handler_caps (cfg : HandlerConfig) (e : event) :
  respects (caps_rel cfg) (handler cfg e).
Proof.
  destruct e; cbn [handler];
    [ unfold on_connect; respects_walk caps_leaf
    | unfold on_disconnect; respects_walk caps_leaf
    | unfold on_room_user_seq; respects_walk caps_leaf
    | unfold on_like; respects_walk caps_leaf
    | apply on_comment_caps
    | apply on_gift_caps ].
Qed.

Lemma read_room_info_caps (cfg : HandlerConfig) (c : ClientRun) :
  respects (caps_rel cfg) (read_room_info c).
Proof. unfold read_room_info. respects_walk caps_leaf. Qed.

Lemma emit_sample_caps (cfg : HandlerConfig) (now : pystr) :
  respects (caps_rel cfg) (emit_sample now).
Proof. intros w H. exact H. Qed.

Lemma do_step_caps (cfg : HandlerConfig) (w : World) (s : step) :
  caps_rel cfg w (do_step cfg w s).
Proof.
  destruct s as [e|c|now]; cbn [do_step].
  - apply handler_caps.
  - apply read_room_info_caps.
  - apply emit_sample_caps.
Qed.

(** X5. Along every run of the bridge from a fresh state, the comments kept
    never outnumber [max_comments] and the gifts kept never outnumber
    [max_gifts] (none is kept when the cap is 0 or negative), and none of
    either is kept when the chat is not collected. *)
Theorem chat_records_stay_within_caps (cfg : HandlerConfig) (steps : list step) (name : pystr) :
  chat_within cfg (state (run cfg steps (new_world name))).
Proof.
  apply (respects_fold (caps_rel cfg) (do_step cfg) (do_step_caps cfg) steps).
  unfold chat_within. cbn [new_world state new_state comments gifts length].
  split; [lia|]. split; [lia|]. intros _. split; reflexivity.
Qed.

(** ** Handlers that do not print *)

Lemma silent_stable : Stable silent_rel.
Proof.
  split.
  - intros w. split; reflexivity.
  - intros a b c [H1 H2] [H3 H4]. split; congruence.
Qed.
#[local] Existing Instance silent_stable.

Ltac silent_leaf := first [congruence | split; reflexivity].

Lemma handler_silent (cfg : HandlerConfig) (e : event) :
  emit_events cfg = false -> respects silent_rel (handler cfg e).
Proof.
  intros Hquiet.
  destruct e; cbn [handler];
    unfold on_connect, on_disconnect, on_room_user_seq, on_like, on_comment, on_gift;
    respects_walk silent_leaf.
Qed.

Lemma handle_events_silent (cfg : HandlerConfig) (evs : list event) :
  emit_events cfg = false -> respects silent_rel (handle_events cfg evs).
Proof.
  intros Hquiet w. unfold handle_events. cbn [fst].
  apply (respects_fold silent_rel). intros w' e. apply handler_silent. exact Hquiet.
Qed.

Lemma read_room_info_silent (c : ClientRun) : respects silent_rel (read_room_info c).
Proof. unfold read_room_info. respects_walk silent_leaf. Qed.

Lemma bootstrap_client_silent (cfg : HandlerConfig) (precheck : bool) (c : ClientRun) :
  emit_events cfg = false -> respects silent_rel (bootstrap_client cfg precheck c).
Proof.
  intros Hquiet. unfold bootstrap_client.
  respects_walk ltac:(idtac;
    lazymatch goal with
    | |- respects _ (handle_events _ _) => apply handle_events_silent; exact Hquiet
    | |- respects _ (read_room_info _) => apply read_room_info_silent
    | |- _ => silent_leaf
    end).
Qed.

(** ** The live flag and the status code *)

Lemma live_stable : Stable live_rel.
Proof. split; unfold live_rel; intros; intuition. Qed.
#[local] Existing Instance live_stable.

Ltac live_leaf :=
  unfold live_rel, known_status; simpl;
  repeat match goal with
         | H : (_ =? _) = true |- _ => apply Z.eqb_eq in H
         end;
  intuition lia.

Lemma handler_keeps_live (cfg : HandlerConfig) (e : event) :
  respects live_rel (handler cfg e).
Proof.
  destruct e; cbn [handler];
    unfold on_connect, on_disconnect, on_room_user_seq, on_like, on_comment, on_gift;
    respects_walk live_leaf.
Qed.

Lemma read_room_info_keeps_live (c : ClientRun) : respects live_rel (read_room_info c).
Proof. unfold read_room_info. respects_walk live_leaf. Qed.

Lemma do_step_keeps_live (cfg : HandlerConfig) (w : World) (s : step) :
  live_rel w (do_step cfg w s).
Proof.
  destruct s as [e|c|now]; cbn [do_step].
  - apply handler_keeps_live.
  - apply read_room_info_keeps_live.
  - unfold live_rel. cbn. tauto.
Qed.

Lemma disconnect_then_connect (cfg : HandlerConfig) (w : World) (ev : value) (now : pystr) :
  let w1 := dispatch cfg w DisconnectEvent in
  let w2 := dispatch cfg w1 (ConnectEvent ev now) in
  is_live (state w1) = is_live (state w) /\
  status_code (state w1) = (if status_code (state w) =? 1 then 2 else status_code (state w)) /\
  is_live (state w2) = true /\ status_code (state w2) = 1.
Proof.
  cbv zeta. unfold dispatch. cbn [handler].
  assert (H1 : state (fst (on_disconnect w)) =
               if status_code (state w) =? 1 then set_status_code 2 (state w) else state w).
  { unfold on_disconnect, se_bind, se_get, se_when.
    destruct (status_code (state w) =? 1); reflexivity. }
  rewrite H1.
  split; [destruct (status_code (state w) =? 1); reflexivity|].
  split; [destruct (status_code (state w) =? 1); reflexivity|].
  unfold on_connect, se_bind, se_modify, se_get, se_when.
  cbn [fst snd state]. destruct (emit_events cfg); split; reflexivity.
Qed.

(** X7. No event handler and no later step ever clears the live flag: once
    [is_live] is set it stays set along every run, also after a disconnect
    event, which only moves the status code from 1 to 2 (a later connect
    event sets it back to 1); and the status code stays among 0, 1, 2
    and 4. *)
Theorem live_flag_is_never_cleared (cfg : HandlerConfig) :
  (forall steps w,
      (is_live (state w) = true -> is_live (state (run cfg steps w)) = true) /\
      (known_status (status_code (state w)) ->
       known_status (status_code (state (run cfg steps w))))) /\
  (forall w ev now,
      let w1 := dispatch cfg w DisconnectEvent in
      let w2 := dispatch cfg w1 (ConnectEvent ev now) in
      is_live (state w1) = is_live (state w) /\
      status_code (state w1) =
        (if status_code (state w) =? 1 then 2 else status_code (state w)) /\
      is_live (state w2) = true /\ status_code (state w2) = 1).
Proof.
  split.
  - intros steps w.
    exact (respects_fold live_rel (do_step cfg) (do_step_keeps_live cfg) steps w).
  - intros w ev now. apply disconnect_then_connect.
Qed.

(** ** Operations that always return *)

Lemma bind_unit_ok {B} (m : SE unit) (k : SE B) (w : World) :
  snd (m w) = Ok tt -> se_bind m (fun _ => k) w = k (fst (m w)).
Proof.
  unfold se_bind. destruct (m w) as [w' [[]|e]]; simpl; [reflexivity|discriminate].
Qed.

Lemma emit_meta_ok (now : pystr) (w : World) : snd (emit_meta now w) = Ok tt.
Proof. reflexivity. Qed.

Lemma emit_sample_ok (now : pystr) (w : World) : snd (emit_sample now w) = Ok tt.
Proof. reflexivity. Qed.

Lemma take_sample_ok (now : pystr) (w : World) : snd (take_sample now w) = Ok tt.
Proof. reflexivity. Qed.

Lemma handle_events_ok (cfg : HandlerConfig) (evs : list event) (w : World) :
  snd (handle_events cfg evs w) = Ok tt.
Proof. reflexivity. Qed.

Lemma safe_disconnect_ok (inp : StreamInputs) (w : World) :
  snd (safe_disconnect inp w) = Ok tt.
Proof. unfold safe_disconnect. destruct (disconnect_error inp); reflexivity. Qed.

Lemma apply_optional_session_ok (inp : StreamInputs) (w : World) :
  snd (apply_optional_session inp w) = Ok tt.
Proof.
  unfold apply_optional_session.
  destruct (str_truthy _); [destruct (set_session_error inp)|]; reflexivity.
Qed.

Lemma bind_raise {A B} (m : SE A) (k : A -> SE B) (w : World) (e : exn) :
  snd (m w) = Raise e -> se_bind m k w = (fst (m w), Raise e).
Proof.
  unfold se_bind. destruct (m w) as [w' [a|e']]; simpl; [discriminate|].
  intros [= ->]. reflexivity.
Qed.

(** The sampling loop returns when there is a stop time, and only then. *)
Lemma sampling_loop_result (cfg : HandlerConfig) (duration : Z) (items : list loop_item) :
  forall w,
    snd (sampling_loop cfg duration items w) =
    if 0 <? duration then Ok tt else Raise Interrupted.
Proof.
  induction items as [|it items IH]; intros w; cbn [sampling_loop].
  - destruct (0 <? duration); reflexivity.
  - rewrite bind_unit_ok; [apply IH|].
    destruct it; cbn [loop_turn]; [apply emit_sample_ok|apply handle_events_ok].
Qed.

Lemma sampling_loop_ok (cfg : HandlerConfig) (duration : Z) (items : list loop_item)
    (w : World) :
  0 < duration -> snd (sampling_loop cfg duration items w) = Ok tt.
Proof.
  intros Hpos. rewrite sampling_loop_result.
  destruct (0 <? duration) eqn:E; [reflexivity|]. apply Z.ltb_ge in E. lia.
Qed.

(** Without a check of the room first, [bootstrap_client] returns [True]
    when it returns. *)
Lemma bootstrap_client_live (cfg : HandlerConfig) (c : ClientRun) (w : World) (live : bool) :
  snd (bootstrap_client cfg false c w) = Ok live -> live = true.
Proof.
  unfold bootstrap_client. cbn [andb].
  repeat (unfold se_bind at 1;
          match goal with
          | |- snd (match ?x with _ => _ end) = _ -> _ =>
              destruct x as [? [?|?]]; cbn [snd]; try discriminate
          end).
  intros [= <-]. reflexivity.
Qed.

Lemma track_loop_ok (cfg : HandlerConfig) (items : list loop_item) : forall w,
  snd (track_loop cfg items w) = Ok tt.
Proof.
  induction items as [|[now|e] items IH]; intros w; cbn [track_loop]; [reflexivity| |].
  - rewrite bind_unit_ok; [apply IH|apply take_sample_ok].
  - rewrite bind_unit_ok; [apply IH|apply handle_events_ok].
Qed.

Ltac always_ok :=
  idtac;
  lazymatch goal with
  | |- snd (emit_meta _ _) = _ => apply emit_meta_ok
  | |- snd (emit_sample _ _) = _ => apply emit_sample_ok
  | |- snd (take_sample _ _) = _ => apply take_sample_ok
  | |- snd (handle_events _ _ _) = _ => apply handle_events_ok
  | |- snd (safe_disconnect _ _) = _ => apply safe_disconnect_ok
  | |- snd (apply_optional_session _ _) = _ => apply apply_optional_session_ok
  | |- snd (sampling_loop _ _ _ _) = _ => apply sampling_loop_ok; assumption
  | |- snd (track_loop _ _ _) = _ => apply track_loop_ok
  end.

(** ** The one ["end"] record of a stream *)

Lemma no_end_stable : Stable no_end_rel.
Proof.
  split.
  - intros w. exists []. rewrite app_nil_r. split; reflexivity.
  - intros a b c (p1 & E1 & N1) (p2 & E2 & N2). exists (p1 ++ p2).
    rewrite E2, E1, app_assoc. split; [reflexivity|].
    unfold end_records in *. rewrite List.filter_app, N1, N2. reflexivity.
Qed.
#[local] Existing Instance no_end_stable.

Ltac no_end_leaf :=
  idtac;
  lazymatch goal with
  | |- no_end_rel _ {| state := _; stdout := emit_line _ _; emitted := _ |} =>
      eexists [_]; cbn [emitted]; split; [reflexivity|];
      unfold snapshot; reflexivity
  | |- no_end_rel _ _ =>
      exists []; cbn [emitted]; rewrite app_nil_r; split; reflexivity
  end.

Lemma handler_no_end (cfg : HandlerConfig) (e : event) :
  respects no_end_rel (handler cfg e).
Proof.
  destruct e; cbn [handler];
    unfold on_connect, on_disconnect, on_room_user_seq, on_like, on_comment, on_gift;
    respects_walk no_end_leaf.
Qed.

Lemma handle_events_no_end (cfg : HandlerConfig) (evs : list event) :
  respects no_end_rel (handle_events cfg evs).
Proof.
  intros w. unfold handle_events. cbn [fst].
  apply (respects_fold no_end_rel). intros w' e. apply handler_no_end.
Qed.

Lemma read_room_info_no_end (c : ClientRun) : respects no_end_rel (read_room_info c).
Proof. unfold read_room_info. respects_walk no_end_leaf. Qed.

Lemma emit_sample_no_end (now : pystr) : respects no_end_rel (emit_sample now).
Proof. intros w. eexists [_]. split; reflexivity. Qed.

Lemma emit_meta_no_end (now : pystr) : respects no_end_rel (emit_meta now).
Proof. unfold emit_meta. respects_walk no_end_leaf. Qed.

Lemma safe_disconnect_no_end (inp : StreamInputs) : respects no_end_rel (safe_disconnect inp).
Proof. unfold safe_disconnect. respects_walk no_end_leaf. Qed.

Lemma apply_optional_session_no_end (inp : StreamInputs) :
  respects no_end_rel (apply_optional_session inp).
Proof. unfold apply_optional_session. respects_walk no_end_leaf. Qed.

Ltac no_end_ops :=
  idtac;
  lazymatch goal with
  | |- respects _ (handle_events _ _) => apply handle_events_no_end
  | |- respects _ (read_room_info _) => apply read_room_info_no_end
  | |- respects _ (emit_sample _) => apply emit_sample_no_end
  | |- respects _ (emit_meta _) => apply emit_meta_no_end
  | |- respects _ (safe_disconnect _) => apply safe_disconnect_no_end
  | |- _ => no_end_leaf
  end.

Lemma bootstrap_client_no_end (cfg : HandlerConfig) (precheck : bool) (c : ClientRun) :
  respects no_end_rel (bootstrap_client cfg precheck c).
Proof. unfold bootstrap_client. respects_walk no_end_ops. Qed.

Lemma sampling_loop_no_end (cfg : HandlerConfig) (duration : Z) (items : list loop_item) :
  respects no_end_rel (sampling_loop cfg duration items).
Proof.
  induction items as [|it items IH]; cbn [sampling_loop].
  - destruct (0 <? duration); [apply respects_ret|apply respects_lift]; typeclasses eauto.
  - apply respects_bind; [typeclasses eauto| |intros _; exact IH].
    destruct it; cbn [loop_turn]; no_end_ops.
Qed.

Lemma emit_end_run (ok : bool) (live : option bool) (error : option pystr) (code : Z)
    (w : World) :
  (emit_end ok live error ;;; se_ret code)%se w =
  ({| state := state w;
      stdout := emit_line (end_record ok (match live with Some b => b | None => is_live (state w) end)
                             (warnings (state w)) error) (stdout w);
      emitted := emitted w ++
                 [end_record ok (match live with Some b => b | None => is_live (state w) end)
                    (warnings (state w)) error] |}, Ok code).
Proof. reflexivity. Qed.

Lemma no_end_then_end (w w1 : World) (r : jdict) :
  no_end_rel w w1 ->
  exists ps, emitted w1 ++ [r] = emitted w ++ ps ++ [r] /\ end_records ps = [].
Proof.
  intros (ps & E & N). exists ps. rewrite E, <- app_assoc. split; [reflexivity|exact N].
Qed.

(** The [try] block: it returns 0 after an ["end"] record, which takes a
    stop time; it raises before any ["end"] record, and what it raises is
    the interruption only when there is no stop time. *)
Lemma stream_body_run (args : Args) (inp : StreamInputs) (w : World) :
  exists w1 r,
    stream_body args inp w = (w1, r) /\
    match r with
    | Ok code =>
        code = 0 /\ 0 < arg_duration_sec args /\
        exists ps live,
          emitted w1 = emitted w ++ ps ++ [end_record true live (warnings (state w1)) None] /\
          end_records ps = []
    | Raise e => no_end_rel w w1 /\ (is_exception e = false -> arg_duration_sec args <= 0)
    end.
Proof.
  unfold stream_body. cbv zeta. unfold se_bind at 1.
  pose proof (bootstrap_client_no_end (stream_config args) false (client inp) w) as Hboot.
  pose proof (bootstrap_client_ends (stream_config args) false (client inp) w) as Hends.
  pose proof (bootstrap_client_live (stream_config args) (client inp) w) as Hlive.
  destruct (bootstrap_client (stream_config args) false (client inp) w) as [w0 [live|e]];
    cbn [fst snd] in Hboot, Hends, Hlive.
  2:{ eexists _, _. split; [reflexivity|]. split; [exact Hboot|].
      destruct e; try discriminate. exfalso. apply Hends. reflexivity. }
  rewrite (Hlive live eq_refl). cbn [negb]. clear Hlive Hends.
  rewrite bind_unit_ok by always_ok.
  assert (Hloop : no_end_rel w
            (fst (sampling_loop (stream_config args) (arg_duration_sec args) (schedule inp)
                    (fst (emit_meta (now_meta inp) w0))))).
  { eapply stable_trans; [exact Hboot|].
    eapply stable_trans; [apply emit_meta_no_end|apply sampling_loop_no_end]. }
  destruct (0 <? arg_duration_sec args) eqn:Hd.
  - apply Z.ltb_lt in Hd.
    do 3 (rewrite bind_unit_ok by always_ok).
    rewrite emit_end_run.
    assert (Hpre : no_end_rel w
              (fst (safe_disconnect inp
                 (fst (emit_sample (now_final inp)
                    (fst (sampling_loop (stream_config args) (arg_duration_sec args)
                            (schedule inp)
                            (fst (emit_meta (now_meta inp) w0))))))))).
    { eapply stable_trans; [exact Hloop|].
      eapply stable_trans; [apply emit_sample_no_end|apply safe_disconnect_no_end]. }
    revert Hpre.
    generalize (fst (safe_disconnect inp
                 (fst (emit_sample (now_final inp)
                    (fst (sampling_loop (stream_config args) (arg_duration_sec args)
                            (schedule inp)
                            (fst (emit_meta (now_meta inp) w0)))))))).
    intros w3 Hpre. eexists _, _. split; [reflexivity|]. split; [reflexivity|].
    split; [exact Hd|].
    cbn [emitted state].
    destruct (no_end_then_end w w3
                (end_record true true (warnings (state w3)) None) Hpre) as (ps & E & N).
    exists ps, true. split; [exact E|exact N].
  - apply Z.ltb_ge in Hd.
    rewrite (bind_raise _ _ _ Interrupted).
    + eexists _, _. split; [reflexivity|]. split; [exact Hloop|]. intros _. exact Hd.
    + rewrite sampling_loop_result.
      destruct (0 <? arg_duration_sec args) eqn:E; [|reflexivity].
      apply Z.ltb_lt in E. lia.
Qed.

(** The text of the error of a stream that raised [e]. *)
Lemma stream_except_run (inp : StreamInputs) (e : exn) (w : World) :
  exists w1 text,
    stream_except inp e w = (w1, Ok 1) /\
    state w1 = state (fst (safe_disconnect inp w)) /\
    emitted w1 =
      emitted w ++ [end_record false (is_live (state w1)) (warnings (state w1)) (Some text)] /\
    text =
      (if str_contains (lit "Age restricted stream") (exn_message e) &&
          negb (str_truthy (env_stripped (env_session_id inp)))
       then exn_message e ++
            lit " | Set TIKTOK_SESSION_ID in .env to access age-restricted lives."
       else exn_message e).
Proof.
  unfold stream_except. cbv zeta.
  rewrite bind_unit_ok by always_ok. rewrite emit_end_run.
  assert (Hsame : emitted (fst (safe_disconnect inp w)) = emitted w).
  { unfold safe_disconnect. destruct (disconnect_error inp); reflexivity. }
  eexists _, _. split; [reflexivity|]. cbn [state emitted].
  rewrite Hsame. split; [reflexivity|]. split; reflexivity.
Qed.

Lemma capture_live_stream_run (args : Args) (inp : StreamInputs) (o : Stdout) :
  exists w r,
    capture_live_stream args inp o = (w, r) /\
    match r with
    | Ok code =>
        (code = 0 \/ code = 1) /\
        (code = 0 -> 0 < arg_duration_sec args) /\
        exists ps live error,
          emitted w = ps ++ [end_record (code =? 0) live (warnings (state w)) error] /\
          end_records ps = [] /\
          (code = 0 <-> error = None)
    | Raise e =>
        e = Interrupted /\ arg_duration_sec args <= 0 /\ end_records (emitted w) = []
    end.
Proof.
  unfold capture_live_stream. cbv zeta.
  rewrite bind_unit_ok by always_ok.
  pose proof (apply_optional_session_no_end inp
                {| state := new_state (lstrip_at (strip (arg_username args)));
                   stdout := o; emitted := [] |}) as Hsess.
  revert Hsess.
  generalize (fst (apply_optional_session inp
                {| state := new_state (lstrip_at (strip (arg_username args)));
                   stdout := o; emitted := [] |})).
  intros w0 (p0 & E0 & N0). cbn [emitted app] in E0.
  unfold se_try.
  destruct (stream_body_run args inp w0) as (w1 & r & Hrun & Hr). rewrite Hrun.
  destruct r as [code|e].
  - destruct Hr as (-> & Hd & ps & live & E & N).
    exists w1, (Ok 0). split; [reflexivity|].
    split; [left; reflexivity|]. split; [intros _; exact Hd|].
    exists (p0 ++ ps), live, None.
    rewrite E, E0, <- app_assoc. split; [reflexivity|].
    split; [|tauto].
    unfold end_records in *. rewrite List.filter_app, N0, N. reflexivity.
  - destruct Hr as ((ps & E & N) & Hd).
    destruct (is_exception e) eqn:He.
    + destruct (stream_except_run inp e w1) as (w2 & text & Hex & _ & E2 & _).
      rewrite Hex.
      exists w2, (Ok 1). split; [reflexivity|].
      split; [right; reflexivity|]. split; [discriminate|].
      exists (p0 ++ ps), (is_live (state w2)), (Some text).
      rewrite E2, E, E0. split; [reflexivity|].
      split; [|split; [lia|discriminate]].
      unfold end_records in *. rewrite List.filter_app, N0, N. reflexivity.
    + exists w1, (Raise e). split; [reflexivity|].
      split; [destruct e; try discriminate He; reflexivity|].
      split; [exact (Hd eq_refl)|].
      rewrite E, E0. unfold end_records in *. rewrite List.filter_app, N0, N. reflexivity.
Qed.


(** ** A client that fails to start *)

Lemma bootstrap_start_fails (cfg : HandlerConfig) (c : ClientRun) (msg : pystr) (w : World) :
  start_error c = Some msg ->
  bootstrap_client cfg false c w =
  ({| state := set_status_code 1 (set_is_live true (state w));
      stdout := stdout w; emitted := emitted w |}, Raise (ClientError msg)).
Proof. intros Hstart. unfold bootstrap_client. cbn [andb]. rewrite Hstart. reflexivity. Qed.

Lemma session_and_disconnect_keep (inp : StreamInputs) (w : World) :
  let w1 := fst (apply_optional_session inp w) in
  let w2 := fst (safe_disconnect inp w) in
  (is_live (state w1) = is_live (state w) /\ samples (state w1) = samples (state w) /\
   emitted w1 = emitted w /\ stdout w1 = stdout w) /\
  (is_live (state w2) = is_live (state w) /\ samples (state w2) = samples (state w) /\
   emitted w2 = emitted w /\ stdout w2 = stdout w).
Proof.
  cbv zeta. unfold apply_optional_session, safe_disconnect.
  destruct (str_truthy _), (set_session_error inp), (disconnect_error inp);
    repeat split; reflexivity.
Qed.

(** X9. When the client fails to start, the stream prints one record and
    nothing else: an ["end"] record with ["ok"] false, ["isLive"] true (the
    flag was set before the start) and the message of the failure as its
    error, followed by the hint about the session id when the message holds
    "Age restricted stream" and no session id is set; no sample is taken and
    the exit code is 1. *)
Theorem failed_start_prints_only_the_end_record
    (args : Args) (inp : StreamInputs) (o : Stdout) (msg : pystr) :
  start_error (client inp) = Some msg ->
  exists w,
    capture_live_stream args inp o = (w, Ok 1) /\
    emitted w =
      [end_record false true (warnings (state w))
         (Some (if str_contains (lit "Age restricted stream") msg &&
                   negb (str_truthy (env_stripped (env_session_id inp)))
                then msg ++ lit " | Set TIKTOK_SESSION_ID in .env to access age-restricted lives."
                else msg))] /\
    samples (state w) = [].
Proof.
  intros Hstart. unfold capture_live_stream. cbv zeta.
  rewrite bind_unit_ok by always_ok.
  destruct (session_and_disconnect_keep inp
              {| state := new_state (lstrip_at (strip (arg_username args)));
                 stdout := o; emitted := [] |}) as [(_ & Hs0 & He0 & _) _].
  cbv zeta in Hs0, He0. revert Hs0 He0.
  generalize (fst (apply_optional_session inp
                {| state := new_state (lstrip_at (strip (arg_username args)));
                   stdout := o; emitted := [] |})).
  intros w0 Hs0 He0. cbn [state emitted new_state samples] in Hs0, He0.
  unfold se_try, stream_body. cbv zeta. unfold se_bind at 1.
  rewrite (bootstrap_start_fails _ _ msg w0 Hstart).
  destruct (stream_except_run inp (ClientError msg)
              {| state := set_status_code 1 (set_is_live true (state w0));
                 stdout := stdout w0; emitted := emitted w0 |})
    as (w2 & text & Hex & Hst & E2 & Htext).
  rewrite Hex. exists w2. split; [reflexivity|].
  destruct (session_and_disconnect_keep inp
              {| state := set_status_code 1 (set_is_live true (state w0));
                 stdout := stdout w0; emitted := emitted w0 |}) as [_ (Hl & Hs & _)].
  cbv zeta in Hl, Hs. rewrite <- Hst in Hl, Hs.
  cbn [state is_live samples set_status_code set_is_live] in Hl, Hs.
  rewrite E2, Hl, Htext. cbn [emitted exn_message]. rewrite He0, Hs, Hs0.
  split; reflexivity.
Qed.

(** ** The check and track modes *)

Lemma take_sample_silent (now : pystr) : respects silent_rel (take_sample now).
Proof. intros w. split; reflexivity. Qed.

Lemma safe_disconnect_silent (inp : StreamInputs) : respects silent_rel (safe_disconnect inp).
Proof. unfold safe_disconnect. respects_walk silent_leaf. Qed.

Lemma apply_optional_session_silent (inp : StreamInputs) :
  respects silent_rel (apply_optional_session inp).
Proof. unfold apply_optional_session. respects_walk silent_leaf. Qed.

Lemma track_loop_silent (cfg : HandlerConfig) (items : list loop_item) :
  emit_events cfg = false -> respects silent_rel (track_loop cfg items).
Proof.
  intros Hquiet.
  induction items as [|[now|e] items IH]; cbn [track_loop].
  - apply respects_ret. typeclasses eauto.
  - apply respects_bind; [typeclasses eauto|apply take_sample_silent|intros _; exact IH].
  - apply respects_bind; [typeclasses eauto| |intros _; exact IH].
    apply handle_events_silent. exact Hquiet.
Qed.

Ltac capture_silent :=
  idtac;
  lazymatch goal with
  | |- respects _ (bootstrap_client _ _ _) => apply bootstrap_client_silent; reflexivity
  | |- respects _ (handle_events _ _) => apply handle_events_silent; reflexivity
  | |- respects _ (track_loop _ _) => apply track_loop_silent; reflexivity
  | |- respects _ (take_sample _) => apply take_sample_silent
  | |- respects _ (safe_disconnect _) => apply safe_disconnect_silent
  | |- respects _ (apply_optional_session _) => apply apply_optional_session_silent
  | |- _ => silent_leaf
  end.

Lemma capture_live_silent (args : Args) (ci : CaptureInputs) (o : Stdout) :
  stdout (fst (capture_live args ci o)) = o /\ emitted (fst (capture_live args ci o)) = [].
Proof.
  unfold capture_live. cbv zeta.
  match goal with
  | |- stdout (fst (?m ?w)) = _ /\ _ =>
      change (silent_rel w (fst (m w))); generalize w; change (respects silent_rel m)
  end.
  unfold capture_body, capture_except, return_payload.
  respects_walk capture_silent.
  apply respects_try; [typeclasses eauto| |intros e]; respects_walk capture_silent.
Qed.

Lemma return_payload_run (ci : CaptureInputs) (w : World) :
  return_payload ci w = (w, Ok (ok_payload (mode ci) (state w) (now_meta (base ci)))).
Proof. reflexivity. Qed.

Lemma take_sample_adds (now : pystr) (w : World) :
  samples (state (fst (take_sample now w))) <> [].
Proof.
  cbn [take_sample se_modify fst state add_sample set_samples samples].
  intros H. apply app_eq_nil in H. destruct H as [_ H]. discriminate H.
Qed.

Lemma capture_body_run (args : Args) (ci : CaptureInputs) (w : World) :
  exists w1 r,
    capture_body args ci w = (w1, r) /\
    match r with
    | Ok payload =>
        payload = ok_payload (mode ci) (state w1) (now_meta (base ci)) /\
        samples (state w1) <> []
    | Raise e => is_exception e = true
    end.
Proof.
  unfold capture_body. cbv zeta. unfold se_bind at 1.
  pose proof (bootstrap_client_ends (capture_config args) true (client (base ci)) w)
    as Hends.
  destruct (bootstrap_client (capture_config args) true (client (base ci)) w)
    as [w0 [live|e]]; cbn [snd] in Hends.
  2:{ eexists _, _. split; [reflexivity|].
      destruct e; try reflexivity. exfalso. apply Hends. reflexivity. }
  clear Hends.
  destruct (negb live); [|destruct (bool_decide (mode ci = lit "check"))].
  - rewrite bind_unit_ok by always_ok. rewrite return_payload_run.
    eexists _, _. split; [reflexivity|]. split; [reflexivity|apply take_sample_adds].
  - do 3 (rewrite bind_unit_ok by always_ok). rewrite return_payload_run.
    eexists _, _. split; [reflexivity|]. split; [reflexivity|].
    destruct (session_and_disconnect_keep (base ci)
                (fst (take_sample (now_final (base ci))
                        (fst (handle_events (capture_config args) (probe_events ci) w0)))))
      as [_ (_ & Hs & _)].
    cbv zeta in Hs. rewrite Hs. apply take_sample_adds.
  - do 3 (rewrite bind_unit_ok by always_ok). rewrite return_payload_run.
    eexists _, _. split; [reflexivity|]. split; [reflexivity|].
    destruct (session_and_disconnect_keep (base ci)
                (fst (take_sample (now_final (base ci))
                        (fst (track_loop (capture_config args) (schedule (base ci)) w0)))))
      as [_ (_ & Hs & _)].
    cbv zeta in Hs. rewrite Hs. apply take_sample_adds.
Qed.

Lemma capture_except_run (ci : CaptureInputs) (e : exn) (w : World) :
  capture_except ci e w =
  (fst (safe_disconnect (base ci) w),
   Ok (error_payload (mode ci) e (state (fst (safe_disconnect (base ci) w))))).
Proof.
  unfold capture_except. rewrite bind_unit_ok by always_ok. reflexivity.
Qed.

Lemma capture_live_runs (args : Args) (ci : CaptureInputs) (o : Stdout) :
  exists w payload,
    capture_live args ci o = (w, Ok payload) /\
    ((payload = ok_payload (mode ci) (state w) (now_meta (base ci)) /\
      samples (state w) <> []) \/
     (exists e, payload = error_payload (mode ci) e (state w))).
Proof.
  unfold capture_live. cbv zeta.
  rewrite bind_unit_ok by always_ok. unfold se_try.
  match goal with
  | |- context [capture_body args ci ?w0] =>
      destruct (capture_body_run args ci w0) as (w1 & r & Hrun & Hr); rewrite Hrun
  end.
  destruct r as [payload|e].
  - exists w1, payload. split; [reflexivity|]. left. exact Hr.
  - rewrite Hr, capture_except_run. eexists _, _. split; [reflexivity|].
    right. exists e. reflexivity.
Qed.

(** X10. In the check and track modes [capture_live] never raises and
    prints nothing: it returns a payload, which is either the payload of a
    capture that went through, with at least one sample in it, or the
    payload of the exception the capture raised, with ["ok"] false and the
    text of the exception. *)
Theorem capture_live_always_returns_a_payload
    (args : Args) (ci : CaptureInputs) (o : Stdout) :
  exists w payload,
    capture_live args ci o = (w, Ok payload) /\
    stdout w = o /\
    ((payload = ok_payload (mode ci) (state w) (now_meta (base ci)) /\
      assoc (lit "ok") payload = Some (JBool true) /\
      samples (state w) <> []) \/
     (exists e, payload = error_payload (mode ci) e (state w) /\
                assoc (lit "ok") payload = Some (JBool false) /\
                assoc (lit "error") payload = Some (JStr (exn_message e)))).
Proof.
  destruct (capture_live_runs args ci o) as (w & payload & Hrun & Hp).
  exists w, payload. split; [exact Hrun|].
  split.
  { pose proof (capture_live_silent args ci o) as [Hout _].
    rewrite Hrun in Hout. exact Hout. }
  destruct Hp as [[-> Hs]|[e ->]].
  - left. split; [reflexivity|]. split; [reflexivity|exact Hs].
  - right. exists e. split; [reflexivity|]. split; reflexivity.
Qed.

Lemma bootstrap_offline (cfg : HandlerConfig) (c : ClientRun) (w : World) :
  truthy (live_check c) = false ->
  bootstrap_client cfg true c w =
  ({| state := set_is_live false (set_status_code 4 (state w));
      stdout := stdout w; emitted := emitted w |}, Ok false).
Proof. intros Hoff. unfold bootstrap_client. rewrite Hoff. reflexivity. Qed.

(** X11. When the live check says the streamer is not live, [capture_live]
    never starts the client: it returns the payload of a state with status
    code 4, the live flag off, no room, no title, no comment, no gift, and
    exactly one sample, whose counts are all 0. *)
Theorem offline_capture_is_one_zero_sample
    (args : Args) (ci : CaptureInputs) (o : Stdout) :
  truthy (live_check (client (base ci))) = false ->
  exists w,
    capture_live args ci o =
      (w, Ok (ok_payload (mode ci) (state w) (now_meta (base ci)))) /\
    status_code (state w) = 4 /\ is_live (state w) = false /\
    room_id (state w) = None /\ title (state w) = None /\
    comments (state w) = [] /\ gifts (state w) = [] /\
    samples (state w) = [zero_sample (now_final (base ci))].
Proof.
  intros Hoff. unfold capture_live. cbv zeta.
  rewrite bind_unit_ok by always_ok. unfold se_try, capture_body. cbv zeta.
  unfold se_bind at 1. rewrite (bootstrap_offline _ _ _ Hoff). cbn [negb].
  rewrite bind_unit_ok by always_ok. rewrite return_payload_run.
  eexists. split; [reflexivity|].
  unfold apply_optional_session.
  destruct (str_truthy _); [destruct (set_session_error (base ci))|];
    repeat split; reflexivity.
Qed.

(** ** [main] *)

Lemma stream_leaves_nothing_buffered (args : Args) (inp : StreamInputs) (o : Stdout) :
  pending (stdout (fst (capture_live_stream args inp o))) = [].
Proof.
  pose proof (capture_live_stream_emits args inp o) as Hne.
  destruct (capture_live_stream_output args inp o) as (ps & E & O & _).
  cbn [emitted stdout app] in E, O. rewrite E in Hne. rewrite O.
  apply (emit_lines_nonempty ps o Hne).
Qed.

(** X12. What the process prints. In the check and track modes [main]
    prints exactly one line, the serialization of the payload
    [capture_live] returned, in printable ASCII, and ends with status 0. In
    the stream mode nothing waits in the buffer, every record is out as soon
    as it is emitted; when the stream returns, [main] ends with its code, 0
    or 1; it does not return only when it has no stop time, and the process
    then runs until it is stopped from outside, without a status of its
    own. *)
Theorem main_prints_the_payload_or_the_stream
    (args : Args) (ci : CaptureInputs) (o : Stdout) :
  (mode ci <> lit "stream" ->
   exists w payload,
     capture_live args ci o = (w, Ok payload) /\
     main args ci o =
       ({| written := written o ++ pending o ++ json_dumps (JDict payload) ++ [10%N];
           pending := [] |}, Some 0) /\
     Forall printable_ascii (json_dumps (JDict payload))) /\
  (mode ci = lit "stream" ->
   exists w r,
     capture_live_stream args (base ci) o = (w, r) /\
     pending (stdout w) = [] /\
     match r with
     | Ok code => main args ci o = (stdout w, Some code) /\ (code = 0 \/ code = 1)
     | Raise _ => main args ci o = (stdout w, None) /\ arg_duration_sec args <= 0
     end).
Proof.
  split; intros Hmode; unfold main.
  - rewrite bool_decide_eq_false_2 by exact Hmode.
    destruct (capture_live_runs args ci o) as (w & payload & Hrun & _).
    pose proof (capture_live_silent args ci o) as [Hout _].
    rewrite Hrun in Hout |- *. cbn [fst] in Hout.
    exists w, payload. split; [reflexivity|].
    split; [|apply json_dumps_printable].
    rewrite Hout. unfold flush_at_exit, print_buffered. cbn [written pending].
    reflexivity.
  - rewrite bool_decide_eq_true_2 by exact Hmode.
    destruct (capture_live_stream_run args (base ci) o) as (w & r & Hrun & Hr).
    pose proof (stream_leaves_nothing_buffered args (base ci) o) as Hflushed.
    rewrite Hrun in Hflushed |- *. cbn [fst] in Hflushed.
    exists w, r. split; [reflexivity|]. split; [exact Hflushed|].
    destruct r as [code|e].
    + destruct Hr as (Hcode & _). split; [|exact Hcode].
      cbn [exit_of]. f_equal. unfold flush_at_exit. rewrite Hflushed, app_nil_r.
      destruct (stdout w) as [wr pe]. cbn [written pending] in *. subst pe. reflexivity.
    + destruct Hr as (-> & Hd & _). split; [reflexivity|exact Hd].
Qed.

End MoreBridgeFacts.

Section BridgeRows.
Context {builtins : Builtins}.

(** ** Handlers that do not print, as a whole *)

(** X6. With [emit_events] off, as in the check and track modes, no
    sequence of events and no bootstrap of the client prints anything. *)
Theorem quiet_handlers_print_nothing (cfg : HandlerConfig) :
  emit_events cfg = false ->
  (forall evs w,
      stdout (fst (handle_events cfg evs w)) = stdout w /\
      emitted (fst (handle_events cfg evs w)) = emitted w) /\
  (forall precheck c w,
      stdout (fst (bootstrap_client cfg precheck c w)) = stdout w /\
      emitted (fst (bootstrap_client cfg precheck c w)) = emitted w).
Proof.
  intros Hquiet. split.
  - intros evs w. apply (handle_events_silent cfg evs Hquiet w).
  - intros precheck c w. apply (bootstrap_client_silent cfg precheck c Hquiet w).
Qed.

(** ** The rows of the chat *)

Lemma rows_stable : Stable rows_rel.
Proof.
  split.
  - intros w. exists [], []. rewrite !app_nil_r. repeat split; constructor.
  - intros a b c (c1 & g1 & Ec1 & Fc1 & Eg1 & Fg1) (c2 & g2 & Ec2 & Fc2 & Eg2 & Fg2).
    exists (c1 ++ c2), (g1 ++ g2).
    rewrite Ec2, Ec1, Eg2, Eg1, !app_assoc.
    repeat split; apply Forall_app; split; assumption.
Qed.
#[local] Existing Instance rows_stable.

Ltac rows_leaf :=
  exists [], []; cbn [state comments gifts]; simpl; rewrite !app_nil_r;
  repeat split; constructor.

Lemma rows_after_optional_emit (b : bool) (payload : jdict) (w w0 : World) :
  rows_rel w0 w -> rows_rel w0 (fst (se_when b (se_emit payload) w)).
Proof. intros H. destruct b; exact H. Qed.

Lemma on_comment_rows (cfg : HandlerConfig) (ev : value) (now : pystr) :
  respects rows_rel (on_comment cfg ev now).
Proof.
  intros w. unfold on_comment, se_bind at 1, se_get.
  destruct (negb (collect_chat cfg) || _ || _); [apply stable_refl|].
  cbv zeta. run_modify. apply rows_after_optional_emit.
  eexists [_], []. cbn [state set_comments comments gifts]. rewrite app_nil_r.
  split; [reflexivity|]. split; [|split; [reflexivity|constructor]].
  constructor; [|constructor]. eexists. reflexivity.
Qed.

Lemma on_gift_rows (cfg : HandlerConfig) (ev : value) (now : pystr) :
  respects rows_rel (on_gift cfg ev now).
Proof.
  intros w. unfold on_gift, se_bind at 1, se_get.
  destruct (negb (collect_chat cfg) || _ || _); [apply stable_refl|].
  cbv zeta.
  destruct (truthy _ && truthy _); [apply stable_refl|].
  do 5 (match goal with
        | |- context [fst (se_bind (se_lift ?r) ?k ?w)] =>
            let n := fresh "n" in
            let e := fresh "e" in
            destruct r as [n|e];
            [ change (fst (se_bind (se_lift (Ok n)) k w)) with (fst (k n w)); cbv beta
            | apply stable_refl ]
        end).
  run_modify. apply rows_after_optional_emit.
  eexists [], [_]. cbn [state set_gifts comments gifts]. rewrite app_nil_r.
  split; [reflexivity|]. split; [constructor|]. split; [reflexivity|].
  constructor; [|constructor].
  eexists _, _. split; [reflexivity|]. split; [lia|]. split; [reflexivity|lia].
Qed.

Lemma handler_rows (cfg : HandlerConfig) (e : event) : respects rows_rel (handler cfg e).
Proof.
  destruct e; cbn [handler];
    [ unfold on_connect; respects_walk rows_leaf
    | unfold on_disconnect; respects_walk rows_leaf
    | unfold on_room_user_seq; respects_walk rows_leaf
    | unfold on_like; respects_walk rows_leaf
    | apply on_comment_rows
    | apply on_gift_rows ].
Qed.

Lemma read_room_info_rows (c : ClientRun) : respects rows_rel (read_room_info c).
Proof. unfold read_room_info. respects_walk rows_leaf. Qed.

Lemma do_step_rows (cfg : HandlerConfig) (w : World) (s : step) :
  rows_rel w (do_step cfg w s).
Proof.
  destruct s as [e|c|now]; cbn [do_step].
  - apply handler_rows.
  - apply read_room_info_rows.
  - exists [], []. cbn. rewrite !app_nil_r. repeat split; constructor.
Qed.

(** X17. Whatever the events carry (missing attributes, negative or
    non-numeric counts), every gift row the bridge keeps has a
    [diamondCount] of at least 0 and a [repeatCount] of at least 1, and
    every comment row has a text in its [comment] field, never a null. *)
Theorem chat_rows_are_well_formed (cfg : HandlerConfig) (steps : list step) (name : pystr) :
  Forall comment_row_ok (comments (state (run cfg steps (new_world name)))) /\
  Forall gift_row_ok (gifts (state (run cfg steps (new_world name)))).
Proof.
  destruct (respects_fold rows_rel (do_step cfg) (do_step_rows cfg) steps (new_world name))
    as (cs & gs & Ec & Fc & Eg & Fg).
  unfold run. rewrite Ec, Eg. cbn [new_world state new_state comments gifts app].
  split; assumption.
Qed.

(** ** The samples of a stream *)

Lemma sample_log_stable : Stable sample_log_rel.
Proof.
  split.
  - intros w. exists []. cbn [map]. rewrite !app_nil_r. split; reflexivity.
  - intros a b c (n1 & S1 & L1) (n2 & S2 & L2). exists (n1 ++ n2).
    rewrite S2, S1, L2, L1, map_app, !app_assoc. split; reflexivity.
Qed.
#[local] Existing Instance sample_log_stable.

Lemma sample_log_other_record (w : World) (o : Stdout) (payload : jdict) :
  is_sample_record payload = false ->
  sample_log_rel w {| state := state w; stdout := o; emitted := emitted w ++ [payload] |}.
Proof.
  intros Hother. exists []. cbn [state emitted map].
  rewrite List.filter_app. cbn [List.filter]. rewrite Hother, !app_nil_r.
  split; reflexivity.
Qed.

Ltac sample_log_leaf :=
  idtac;
  lazymatch goal with
  | |- sample_log_rel _ {| state := _; stdout := emit_line _ _; emitted := _ |} =>
      apply sample_log_other_record; unfold snapshot; reflexivity
  | |- sample_log_rel _ _ =>
      exists []; cbn [state emitted map]; simpl; rewrite !app_nil_r; split; reflexivity
  end.

Lemma handler_sample_log (cfg : HandlerConfig) (e : event) :
  respects sample_log_rel (handler cfg e).
Proof.
  destruct e; cbn [handler];
    unfold on_connect, on_disconnect, on_room_user_seq, on_like, on_comment, on_gift;
    respects_walk sample_log_leaf.
Qed.

Lemma handle_events_sample_log (cfg : HandlerConfig) (evs : list event) :
  respects sample_log_rel (handle_events cfg evs).
Proof.
  intros w. unfold handle_events. cbn [fst].
  apply (respects_fold sample_log_rel). intros w' e. apply handler_sample_log.
Qed.

Lemma read_room_info_sample_log (c : ClientRun) : respects sample_log_rel (read_room_info c).
Proof. unfold read_room_info. respects_walk sample_log_leaf. Qed.

Lemma emit_sample_sample_log (now : pystr) : respects sample_log_rel (emit_sample now).
Proof.
  intros w. exists [snd (add_sample (state w) now)].
  split; [reflexivity|].
  change (emitted (fst (emit_sample now w)))
    with (emitted w ++ [sample_record (snd (add_sample (state w) now))]).
  rewrite List.filter_app. f_equal.
Qed.

Ltac sample_log_ops :=
  idtac;
  lazymatch goal with
  | |- respects _ (handle_events _ _) => apply handle_events_sample_log
  | |- respects _ (read_room_info _) => apply read_room_info_sample_log
  | |- respects _ (emit_sample _) => apply emit_sample_sample_log
  | |- _ => sample_log_leaf
  end.

Lemma bootstrap_client_sample_log (cfg : HandlerConfig) (precheck : bool) (c : ClientRun) :
  respects sample_log_rel (bootstrap_client cfg precheck c).
Proof. unfold bootstrap_client. respects_walk sample_log_ops. Qed.

Lemma sampling_loop_sample_log (cfg : HandlerConfig) (duration : Z) (items : list loop_item) :
  respects sample_log_rel (sampling_loop cfg duration items).
Proof.
  induction items as [|it items IH]; cbn [sampling_loop].
  - destruct (0 <? duration); [apply respects_ret|apply respects_lift]; typeclasses eauto.
  - apply respects_bind; [typeclasses eauto| |intros _; exact IH].
    destruct it; cbn [loop_turn]; sample_log_ops.
Qed.

Ltac sample_log_stream :=
  idtac;
  lazymatch goal with
  | |- respects _ (bootstrap_client _ _ _) => apply bootstrap_client_sample_log
  | |- respects _ (sampling_loop _ _ _) => apply sampling_loop_sample_log
  | |- sample_log_rel _ {| state := _; stdout := emit_line (end_record _ _ _ _) _;
                           emitted := _ |} =>
      apply sample_log_other_record; reflexivity
  | |- _ => sample_log_ops
  end.

(** X18. The samples a stream prints are the samples it keeps: its
    ["sample"] records are, in order, the samples of [state.samples], each
    with its ["type"] field added, so the consumer of the stream has seen
    every sample of the final state and no other. *)
Theorem stream_prints_the_samples_it_keeps (args : Args) (inp : StreamInputs) (o : Stdout) :
  let w := fst (capture_live_stream args inp o) in
  List.filter is_sample_record (emitted w) = map sample_record (samples (state w)).
Proof.
  cbv zeta.
  assert (Hrel : sample_log_rel
            {| state := new_state (lstrip_at (strip (arg_username args)));
               stdout := o; emitted := [] |}
            (fst (capture_live_stream args inp o))).
  { unfold capture_live_stream. cbv zeta.
    match goal with
    | |- sample_log_rel ?w (fst (?m ?w)) =>
        generalize w; change (respects sample_log_rel m)
    end.
    unfold apply_optional_session, stream_body, stream_except,
      emit_meta, emit_end, safe_disconnect.
    respects_walk sample_log_stream.
    apply respects_try; [typeclasses eauto| |intros e];
      respects_walk sample_log_stream. }
  destruct Hrel as (new & Hs & Hl).
  cbn [state emitted new_state samples app List.filter] in Hs, Hl.
  rewrite Hl, Hs. reflexivity.
Qed.

End BridgeRows.

(** * More of the donation-goal display *)

Module PianothonMore.
Import Pianothon.

(** X14. What a gift prints and whom it thanks. A gift of a running streak
    changes nothing and prints nothing. Any other gift prints its coins and
    the new total; when it is worth at least one coin it also sets the
    thank-you line to the thanks for the giver and prints it, and otherwise
    it leaves the line as it was. *)
Theorem gift_prints_and_thanks (ev : GiftEvent) (m : Main) :
  (streakable ev = true -> streaking ev = true -> on_gift ev m = m) /\
  (streakable ev && streaking ev = false ->
   snd (on_gift ev m) =
     snd m ++
     [str_of_int (gift_coins ev);
      lit "total coins: " ++ str_of_int (totalcoins (fst m) + gift_coins ev)] ++
     (if 1 <=? gift_coins ev then [lit "Thanks to " ++ nickname ev] else []) /\
   thankstr (fst (on_gift ev m)) =
     (if 1 <=? gift_coins ev then lit "Thanks to " ++ nickname ev else thankstr (fst m))).
Proof.
  unfold on_gift, gift_coins, thank, giftreceived, print, thankvalue.
  split.
  - intros -> ->. reflexivity.
  - destruct (streakable ev), (streaking ev); cbn [andb negb]; intros Hgo;
      try discriminate Hgo;
      cbn [fst snd totalcoins thankstr];
      match goal with
      | |- context [1 <=? ?c] => destruct (1 <=? c)
      end;
      cbn [fst snd thankstr totalcoins]; rewrite <- ?app_assoc; split; reflexivity.
Qed.

Lemma pick_threshold_range (coins : nat -> Z) (old : Z) :
  15 <= old <= 55 -> 15 <= fst (pick_threshold coins old) <= 55.
Proof.
  intros Hold. unfold pick_threshold, basecoinsthres, incr.
  repeat match goal with
         | |- context [if ?b then _ else _] => destruct b
         end;
    cbn [fst]; lia.
Qed.

Lemma mainloop_turn_keeps (rd : TurnReads) (millis : Z) (quit : bool) (loc : RenderLocal) :
  let loc' := fst (fst (mainloop_turn rd millis quit loc)) in
  (15 <= coinsthres loc <= 55 -> 15 <= coinsthres loc' <= 55) /\
  (thank_tested rd = thank_appended rd -> NoDup (thanklist loc) -> NoDup (thanklist loc')) /\
  (forall t, t ∈ thanklist loc -> t ∈ thanklist loc') /\
  (running loc' = true -> running loc = true).
Proof.
  cbv zeta. unfold mainloop_turn.
  pose proof (pick_threshold_range (coins_compared rd) (coinsthres loc)) as Hrange.
  destruct (pick_threshold (coins_compared rd) (coinsthres loc)) as [thres printed].
  cbn [fst snd coinsthres thanklist running] in *.
  split; [exact Hrange|].
  destruct (bool_decide (thank_tested rd ∈ thanklist loc)) eqn:Hin.
  - apply bool_decide_eq_true_1 in Hin.
    repeat split; auto. destruct quit; [discriminate|auto].
  - apply bool_decide_eq_false_1 in Hin.
    split; [|split].
    + intros Hsame Hnd. rewrite <- Hsame. apply NoDup_app. split; [exact Hnd|]. split.
      * intros x Hx Hx'. apply list_elem_of_singleton in Hx'. subst x. exact (Hin Hx).
      * apply NoDup_singleton.
    + intros t Ht. apply elem_of_app. left. exact Ht.
    + destruct quit; [discriminate|auto].
Qed.

(** X15. Along every run of the rendering loop from its initial locals the
    threshold stays between 15 and 55, so the division and the remainder by
    it are always defined. The list of thank-you lines never holds a line
    twice as long as each turn appends the line it tested; the two are
    separate reads of the shared string, and when the event process writes
    between them the list can hold a line twice. *)
Theorem rendering_loop_keeps_threshold_and_thanks :
  (forall turns, 15 <= coinsthres (mainloop_run turns render_init) <= 55) /\
  (forall turns,
      appends_what_it_tested turns ->
      NoDup (thanklist (mainloop_run turns render_init))) /\
  (exists turns, ~ NoDup (thanklist (mainloop_run turns render_init))).
Proof.
  assert (Hthres : forall turns loc,
             15 <= coinsthres loc <= 55 ->
             15 <= coinsthres (mainloop_run turns loc) <= 55).
  { induction turns as [|[[rd millis] quit] turns IH]; intros loc Hc;
      cbn [mainloop_run]; [assumption|].
    destruct (running loc); [|assumption].
    destruct (mainloop_turn_keeps rd millis quit loc) as (Hc' & _).
    apply IH, Hc', Hc. }
  assert (Hthanks : forall turns loc,
             appends_what_it_tested turns -> NoDup (thanklist loc) ->
             NoDup (thanklist (mainloop_run turns loc))).
  { induction turns as [|[[rd millis] quit] turns IH]; intros loc Hsame Hn;
      cbn [mainloop_run]; [assumption|].
    destruct (running loc); [|assumption].
    apply List.Forall_cons_iff in Hsame. destruct Hsame as [Hrd Hrest].
    cbn [fst] in Hrd.
    destruct (mainloop_turn_keeps rd millis quit loc) as (_ & Hn' & _).
    apply IH; [exact Hrest|apply Hn'; assumption]. }
  split; [|split].
  - intros turns. apply Hthres. cbn. unfold basecoinsthres. lia.
  - intros turns Hsame. apply Hthanks; [exact Hsame|]. cbn. apply NoDup_nil. exact I.
  - exists raced_turns. intros Hn.
    assert (E : thanklist (mainloop_run raced_turns render_init) =
                [lit "Thanks to ann"; lit "Thanks to ann"]) by reflexivity.
    rewrite E in Hn. apply NoDup_cons in Hn. destruct Hn as [Hnot _].
    apply Hnot. apply list_elem_of_singleton. reflexivity.
Qed.

(** ** [calcminadded] *)

Lemma minute_loop_spec (n : nat) : forall price coins added,
  0 < price -> 0 <= coins ->
  match minute_loop n price coins added with
  | inl r =>
      exists j, 0 <= j < Z.of_nat n /\ r = added + j /\
                j * price <= coins < (j + 1) * price
  | inr (coins', added') =>
      added' = added + Z.of_nat n /\ coins' = coins - Z.of_nat n * price /\ 0 <= coins'
  end.
Proof.
  induction n as [|n IH]; intros price coins added Hp Hc; cbn [minute_loop].
  - split; [lia|]. split; lia.
  - cbv zeta. destruct (Z.ltb_spec (coins - price) 0) as [Hlt|Hge].
    + exists 0. split; [lia|]. split; lia.
    + specialize (IH price (coins - price) (added + 1) Hp Hge).
      destruct (minute_loop n price (coins - price) (added + 1)) as [r|[coins' added']].
      * destruct IH as (j & Hj & -> & Hlo & Hhi).
        exists (j + 1). split; [lia|]. split; [lia|]. split; nia.
      * destruct IH as (-> & -> & Hnn). split; [lia|]. split; [nia|exact Hnn].
Qed.

Lemma minute_price_in_quarter (q j : nat) :
  (j < 15)%nat ->
  minute_price (Z.of_nat (15 * q + j)) = basecoinsthres + incr * Z.of_nat q.
Proof.
  intros Hj. unfold minute_price. f_equal. f_equal.
  symmetry. apply Z.div_unique with (r := Z.of_nat j); lia.
Qed.

Lemma minutes_cost_in_quarter (q j : nat) :
  (j <= 15)%nat ->
  minutes_cost (15 * q + j) =
  minutes_cost (15 * q) + Z.of_nat j * (basecoinsthres + incr * Z.of_nat q).
Proof.
  induction j as [|j IH]; intros Hj.
  - rewrite Nat.add_0_r. lia.
  - replace (15 * q + S j)%nat with (S (15 * q + j)) by lia.
    cbn [minutes_cost]. rewrite IH by lia.
    rewrite minute_price_in_quarter by lia. lia.
Qed.

Lemma quarter_loop_spec (k : nat) : forall q0 coins,
  0 <= coins ->
  match quarter_loop (map Z.of_nat (seq q0 k)) coins (Z.of_nat (15 * q0)) with
  | Some a =>
      exists n : nat,
        a = Z.of_nat n /\ (15 * q0 <= n < 15 * (q0 + k))%nat /\
        minutes_cost n - minutes_cost (15 * q0) <= coins <
        minutes_cost (S n) - minutes_cost (15 * q0)
  | None => minutes_cost (15 * (q0 + k)) - minutes_cost (15 * q0) <= coins
  end.
Proof.
  induction k as [|k IH]; intros q0 coins Hc; cbn [seq map quarter_loop].
  - rewrite Nat.add_0_r. lia.
  - assert (Hprice : 0 < basecoinsthres + incr * Z.of_nat q0)
      by (unfold basecoinsthres, incr; lia).
    pose proof (minute_loop_spec 15 _ coins (Z.of_nat (15 * q0)) Hprice Hc) as Hm.
    destruct (minute_loop 15 (basecoinsthres + incr * Z.of_nat q0) coins
                (Z.of_nat (15 * q0))) as [r|[coins' added']].
    + destruct Hm as (j & Hj & -> & Hlo & Hhi).
      exists (15 * q0 + Z.to_nat j)%nat.
      split; [lia|]. split; [lia|].
      replace (S (15 * q0 + Z.to_nat j)) with (15 * q0 + S (Z.to_nat j))%nat by lia.
      rewrite !minutes_cost_in_quarter by lia.
      rewrite Nat2Z.inj_succ, Z2Nat.id by lia. lia.
    + destruct Hm as (-> & -> & Hnn).
      replace (Z.of_nat (15 * q0) + Z.of_nat 15) with (Z.of_nat (15 * S q0)) by lia.
      specialize (IH (S q0) _ Hnn).
      pose proof (minutes_cost_in_quarter q0 15 (Nat.le_refl 15)) as Hq.
      replace (15 * q0 + 15)%nat with (15 * S q0)%nat in Hq by lia.
      replace (q0 + S k)%nat with (S q0 + k)%nat by lia.
      destruct (quarter_loop _ _ _) as [a|].
      * destruct IH as (n & -> & Hn & Hlo & Hhi).
        exists n. split; [reflexivity|]. split; [lia|]. lia.
      * lia.
Qed.

(** X16. [calcminadded(c)] is the number of whole minutes [c] coins pay
    for, the minute number [k] (from 0) costing 15 coins plus 5 for each
    full quarter of an hour before it: it returns the [n] below 450 with
    the first [n] minutes paid and the next one not. With coins for all 450
    minutes (39375 or more) it runs off its loops and returns [None], and
    for a negative [c] it returns 0. *)
Theorem calcminadded_counts_paid_minutes (c : Z) :
  (0 <= c ->
   match calcminadded c with
   | Some a =>
       exists n : nat,
         a = Z.of_nat n /\ (n < 450)%nat /\ minutes_cost n <= c < minutes_cost (S n)
   | None => 39375 <= c
   end) /\
  (c < 0 -> calcminadded c = Some 0) /\
  (calcminadded c = None <-> 39375 <= c).
Proof.
  assert (Hcost : minutes_cost 450 = 39375) by (vm_compute; reflexivity).
  assert (Hpos : 0 <= c ->
     match calcminadded c with
     | Some a =>
         exists n : nat,
           a = Z.of_nat n /\ (n < 450)%nat /\ minutes_cost n <= c < minutes_cost (S n)
     | None => 39375 <= c
     end).
  { intros Hc. unfold calcminadded.
    pose proof (quarter_loop_spec 30 0 c Hc) as Hq.
    change (Z.of_nat (15 * 0)) with 0 in Hq.
    destruct (quarter_loop (map Z.of_nat (seq 0 30)) c 0) as [a|].
    - destruct Hq as (n & -> & Hn & Hlo & Hhi).
      exists n. split; [reflexivity|]. split; [lia|].
      change (minutes_cost (15 * 0)) with 0 in Hlo, Hhi. lia.
    - change (15 * (0 + 30))%nat with 450%nat in Hq.
      change (minutes_cost (15 * 0)) with 0 in Hq. lia. }
  assert (Hneg : c < 0 -> calcminadded c = Some 0).
  { intros Hc. unfold calcminadded. cbn [seq map quarter_loop minute_loop].
    cbv zeta. unfold basecoinsthres, incr.
    destruct (Z.ltb_spec (c - (15 + 5 * Z.of_nat 0)) 0); [reflexivity|lia]. }
  split; [exact Hpos|]. split; [exact Hneg|].
  split.
  - intros Hnone. destruct (Z.lt_ge_cases c 0) as [Hc|Hc].
    + rewrite (Hneg Hc) in Hnone. discriminate Hnone.
    + specialize (Hpos Hc). rewrite Hnone in Hpos. exact Hpos.
  - intros Hbig. assert (Hc : 0 <= c) by lia. specialize (Hpos Hc).
    destruct (calcminadded c) as [a|]; [|reflexivity].
    destruct Hpos as (n & _ & Hn & _ & Hhi).
    assert (Hmono : forall m : nat, (m <= 450)%nat -> minutes_cost m <= 39375).
    { intros m Hm. rewrite <- Hcost.
      replace 450%nat with (m + (450 - m))%nat by lia.
      generalize (450 - m)%nat. intros d. induction d as [|d IHd].
      - rewrite Nat.add_0_r. lia.
      - replace (m + S d)%nat with (S (m + d)) by lia. cbn [minutes_cost].
        unfold minute_price, basecoinsthres, incr.
        assert (0 <= Z.of_nat (m + d) / 15) by (apply Z.div_pos; lia). lia. }
    specialize (Hmono (S n) ltac:(lia)). lia.
Qed.

End PianothonMore.

(** * The properties above on concrete inputs *)

#[local] Existing Instance integer_literals.

Lemma as_str_is_clean_witness :
  as_str (VStr (lit "  hi there ")) = Some (lit "hi there") /\
  lit "hi there" <> [] /\ trimmed (lit "hi there") /\
  as_str (VStr (lit "hi there")) = Some (lit "hi there").
Proof.
  split; [reflexivity|].
  exact (proj2 (as_str_is_clean (VStr (lit "  hi there ")) (lit "hi there") eq_refl)).
Defined.


Lemma find_max_int_returns_witness :
  (nesting nested_room <= 4)%nat /\
  Forall (fun v => safe_for_to_int v = true) (bound_values viewer_keys nested_room) /\
  exists n, find_max_int 4 viewer_keys nested_room = Ok n /\ 0 <= n.
Proof.
  assert (Hdepth : (nesting nested_room <= 4)%nat) by (vm_compute; lia).
  assert (Hsafe : Forall (fun v => safe_for_to_int v = true)
                    (bound_values viewer_keys nested_room))
    by (repeat first [apply List.Forall_nil | apply List.Forall_cons; [reflexivity|]]).
  split; [exact Hdepth|]. split; [exact Hsafe|].
  exact (find_max_int_returns 4 viewer_keys nested_room Hdepth Hsafe).
Defined.

Lemma room_info_readers_are_the_scans_witness :
  find_max_int 4 viewer_keys nested_room = Ok 40 /\ 0 <= 40.
Proof.
  split; [reflexivity|].
  exact (proj2 (proj2 (room_info_readers_are_the_scans 4 nested_room))
           viewer_keys 40 eq_refl).
Defined.

Lemma quiet_handlers_print_nothing_witness :
  emit_events quiet_config = false /\
  stdout (fst (handle_events quiet_config [room_seven_connects] live_world)) =
    stdout live_world /\
  emitted (fst (handle_events quiet_config [room_seven_connects] live_world)) =
    emitted live_world.
Proof.
  split; [reflexivity|].
  exact (proj1 (quiet_handlers_print_nothing quiet_config eq_refl)
           [room_seven_connects] live_world).
Defined.

Lemma live_flag_is_never_cleared_witness :
  is_live (state live_world) = true /\
  is_live (state (run chat_config [SEvent DisconnectEvent] live_world)) = true.
Proof.
  split; [reflexivity|].
  exact (proj1 (proj1 (live_flag_is_never_cleared chat_config)
                  [SEvent DisconnectEvent] live_world) eq_refl).
Defined.

Lemma failed_start_prints_only_the_end_record_witness :
  start_error (client age_restricted_inputs) = Some (lit "Age restricted stream") /\
  exists w,
    capture_live_stream quiet_args age_restricted_inputs stdout_empty = (w, Ok 1) /\
    emitted w =
      [end_record false true (warnings (state w))
         (Some (if str_contains (lit "Age restricted stream") (lit "Age restricted stream") &&
                   negb (str_truthy (env_stripped (env_session_id age_restricted_inputs)))
                then lit "Age restricted stream" ++
                     lit " | Set TIKTOK_SESSION_ID in .env to access age-restricted lives."
                else lit "Age restricted stream"))] /\
    samples (state w) = [].
Proof.
  split; [reflexivity|].
  exact (failed_start_prints_only_the_end_record quiet_args age_restricted_inputs
           stdout_empty (lit "Age restricted stream") eq_refl).
Defined.

Lemma offline_capture_is_one_zero_sample_witness :
  truthy (live_check (client (base offline_check))) = false /\
  exists w,
    capture_live quiet_args offline_check stdout_empty =
      (w, Ok (ok_payload (mode offline_check) (state w) (now_meta (base offline_check)))) /\
    status_code (state w) = 4 /\ is_live (state w) = false /\
    room_id (state w) = None /\ title (state w) = None /\
    comments (state w) = [] /\ gifts (state w) = [] /\
    samples (state w) = [zero_sample (now_final (base offline_check))].
Proof.
  split; [reflexivity|].
  exact (offline_capture_is_one_zero_sample quiet_args offline_check stdout_empty eq_refl).
Defined.

Lemma track_mode_is_not_stream : mode quiet_track <> lit "stream".
Proof. intros H. vm_compute in H. discriminate H. Defined.

Lemma main_prints_the_payload_or_the_stream_witness :
  (mode quiet_track <> lit "stream" /\
   exists w payload,
     capture_live quiet_args quiet_track stdout_empty = (w, Ok payload) /\
     main quiet_args quiet_track stdout_empty =
       ({| written := written stdout_empty ++ pending stdout_empty ++
                      json_dumps (JDict payload) ++ [10%N];
           pending := [] |}, Some 0) /\
     Forall printable_ascii (json_dumps (JDict payload))) /\
  (mode quiet_stream = lit "stream" /\
   snd (capture_live_stream quiet_args (base quiet_stream) stdout_empty) = Ok 0 /\
   snd (capture_live_stream endless_args (base quiet_stream) stdout_empty) =
     Raise Interrupted /\
   (exists w r,
     capture_live_stream quiet_args (base quiet_stream) stdout_empty = (w, r) /\
     pending (stdout w) = [] /\
     match r with
     | Ok code =>
         main quiet_args quiet_stream stdout_empty = (stdout w, Some code) /\
         (code = 0 \/ code = 1)
     | Raise _ =>
         main quiet_args quiet_stream stdout_empty = (stdout w, None) /\
         arg_duration_sec quiet_args <= 0
     end) /\
   (exists w r,
     capture_live_stream endless_args (base quiet_stream) stdout_empty = (w, r) /\
     pending (stdout w) = [] /\
     match r with
     | Ok code =>
         main endless_args quiet_stream stdout_empty = (stdout w, Some code) /\
         (code = 0 \/ code = 1)
     | Raise _ =>
         main endless_args quiet_stream stdout_empty = (stdout w, None) /\
         arg_duration_sec endless_args <= 0
     end)).
Proof.
  split.
  - split; [exact track_mode_is_not_stream|].
    exact (proj1 (main_prints_the_payload_or_the_stream quiet_args quiet_track stdout_empty)
             track_mode_is_not_stream).
  - split; [reflexivity|]. split; [reflexivity|]. split; [reflexivity|]. split.
    + exact (proj2 (main_prints_the_payload_or_the_stream quiet_args quiet_stream
                      stdout_empty) eq_refl).
    + exact (proj2 (main_prints_the_payload_or_the_stream endless_args quiet_stream
                      stdout_empty) eq_refl).
Defined.


Lemma rendering_loop_keeps_threshold_and_thanks_witness :
  Pianothon.appends_what_it_tested calm_turns /\
  NoDup (Pianothon.thanklist (Pianothon.mainloop_run calm_turns Pianothon.render_init)).
Proof.
  assert (Hcalm : Pianothon.appends_what_it_tested calm_turns)
    by (repeat first [apply List.Forall_nil | apply List.Forall_cons; [reflexivity|]]).
  split; [exact Hcalm|].
  exact (proj1 (proj2 PianothonMore.rendering_loop_keeps_threshold_and_thanks)
           calm_turns Hcalm).
Defined.

Lemma gift_prints_and_thanks_witness :
  Pianothon.on_gift running_streak main_init = main_init /\
  Pianothon.thankstr (fst (Pianothon.on_gift single_gift main_init)) = lit "Thanks to bob".
Proof.
  split.
  - exact (proj1 (PianothonMore.gift_prints_and_thanks running_streak main_init)
             eq_refl eq_refl).
  - exact (proj2 (proj2 (PianothonMore.gift_prints_and_thanks single_gift main_init)
                    eq_refl)).
Defined.

Lemma calcminadded_counts_paid_minutes_witness :
  0 <= 100 /\
  match Pianothon.calcminadded 100 with
  | Some a =>
      exists n : nat,
        a = Z.of_nat n /\ (n < 450)%nat /\
        Pianothon.minutes_cost n <= 100 < Pianothon.minutes_cost (S n)
  | None => 39375 <= 100
  end.
Proof.
  assert (H : 0 <= 100) by (intros Hc; discriminate Hc).
  split; [exact H|].
  exact (proj1 (PianothonMore.calcminadded_counts_paid_minutes 100) H).
Defined.
